(** * CodexMonitor web gateway console: a shallow embedding

    The console script (the browser side of the web gateway) keeps one
    mutable [state] object, a table [els] of DOM elements, the browser's
    [localStorage], and talks to the gateway through [fetch] and a single
    WebSocket.  This file embeds the script as state-passing Rocq code and
    proves properties of its synchronisation logic.

    Conventions of the embedding.
    - JavaScript values are the inductive [value].  Numbers are integers
      (ids, counters and timestamps of the gateway payloads); strings are
      Rocq strings.
    - [JSON.parse] is a section variable: every theorem holds for whatever
      parser the browser provides.  [Lite.parse] is a small parser for the
      escape-free fragment, used to run the script on concrete documents.
    - An [async] function is a [task]: a tree whose nodes read or write the
      world or suspend on [fetch].  [run] executes a task up to its first
      suspension; the continuation it returns is resumed, in whatever world
      exists by then, when the response arrives.  An [await] of a call that
      ended without waiting goes on in the same step: micro-task turns, in
      which no timer, click or message is served, are not kept apart.
    - DOM output that the script never reads back (badges, hints, option and
      thread markup) is not recorded.  What the script does read back is:
      whether an element exists, the [value] of the inputs, and the children
      of the event log. *)

From Stdlib Require Import ZArith String Ascii List Bool Lia DecimalString.
From stdpp Require Import base option list strings gmap.

Set Warnings "-register-all".

Local Open Scope string_scope.
Local Open Scope Z_scope.
Local Open Scope list_scope.
Local Open Scope stdpp_scope.

(** ** JavaScript values

    An object is the list of its keys, each once, with their values; a
    property read takes the first entry of the key. *)

Inductive value : Type :=
| VUndefined
| VNull
| VBool (b : bool)
| VNum (n : Z)
| VStr (s : string)
| VArr (items : list value)
| VObj (fields : list (string * value)).

(** [Boolean(v)]: the truthiness test behind [if], [!], [&&], [||], [?:]. *)
Definition truthy (v : value) : bool :=
  match v with
  | VUndefined | VNull => false
  | VBool b => b
  | VNum n => negb (n =? 0)
  | VStr s => negb (String.eqb s "")
  | VArr _ | VObj _ => true
  end.

(** [a || b] *)
Definition js_or (a b : value) : value := if truthy a then a else b.

(** [a && b] *)
Definition js_and (a b : value) : value := if truthy a then b else a.

(** [a || b] on strings: the empty string is the only falsy one. *)
Definition str_or (a b : string) : string := if String.eqb a "" then b else a.

Definition string_of_Z (n : Z) : string := NilZero.string_of_int (Z.to_int n).

(** [String(v)], where it returns.  A number is an integer, written in
    digits: the exponent notation [String] uses from [1e21] on is not
    modelled.  An object reads ["[object Object]"], which is what
    [Object.prototype.toString] returns; an object with a key [toString] of
    its own makes [String] throw instead, see [String_throws]. *)
Fixpoint js_String (v : value) : string :=
  match v with
  | VUndefined => "undefined"
  | VNull => "null"
  | VBool true => "true"
  | VBool false => "false"
  | VNum n => string_of_Z n
  | VStr s => s
  | VArr items =>
      (fix join (l : list value) : string :=
         let elem x := match x with
                       | VUndefined | VNull => ""
                       | _ => js_String x
                       end in
         match l with
         | [] => ""
         | [x] => elem x
         | x :: rest => elem x +:+ "," +:+ join rest
         end) items
  | VObj _ => "[object Object]"
  end.

(** Whether [String(v)] throws a TypeError.  A parsed object whose own key
    [toString] hides the inherited method has nothing callable to convert
    it; an array is joined from its entries, so it throws when one of them
    does. *)
Fixpoint String_throws (v : value) : bool :=
  match v with
  | VObj fields => existsb (fun field => String.eqb (fst field) "toString") fields
  | VArr items => existsb String_throws items
  | _ => false
  end.

Fixpoint assoc (k : string) (l : list (string * value)) : value :=
  match l with
  | [] => VUndefined
  | (k', v) :: rest => if String.eqb k k' then v else assoc k rest
  end.

(** [v?.k], and [v.k] where [v] is known not to be null or undefined.  None of
    the keys the script reads is a built-in property of strings, numbers,
    booleans or arrays, so only objects answer. *)
Definition prop (v : value) (k : string) : value :=
  match v with
  | VObj fields => assoc k fields
  | _ => VUndefined
  end.

Definition nullish (v : value) : bool :=
  match v with
  | VUndefined | VNull => true
  | _ => false
  end.

(** [Array.isArray(v) ? v : []] *)
Definition array_or_empty (v : value) : list value :=
  match v with
  | VArr items => items
  | _ => []
  end.

(** [s.trim()], on the ASCII white space characters: tab to carriage
    return and the space.  The other white space [trim] strips (U+00A0,
    U+FEFF, U+2028 and the like) is kept. *)
Definition is_space (c : ascii) : bool :=
  let n := nat_of_ascii c in
  (Nat.eqb n 32 || (Nat.leb 9 n && Nat.leb n 13))%bool.

Fixpoint trim_start (s : string) : string :=
  match s with
  | String c rest => if is_space c then trim_start rest else s
  | EmptyString => EmptyString
  end.

Fixpoint trim_end (s : string) : string :=
  match s with
  | String c rest =>
      match trim_end rest with
      | EmptyString => if is_space c then EmptyString else String c EmptyString
      | r => String c r
      end
  | EmptyString => EmptyString
  end.

Definition trim (s : string) : string := trim_end (trim_start s).

(** A string of white space only. *)
Fixpoint blank (s : string) : bool :=
  match s with
  | String c rest => is_space c && blank rest
  | EmptyString => true
  end.

(** ** The script's data *)

Definition TOKEN_STORAGE_KEY : string := "codexmonitor.webGateway.token".
Definition MAX_EVENT_LINES : nat := 300.

(** The [state] object. [ws] holds the URL of the open socket;
    [refreshThreadsTimer] the handle [setTimeout] returned. *)
Record state : Type := mkState {
  token : string;
  workspaces : list value;
  activeWorkspaceId : string;
  threads : list value;
  activeThreadId : string;
  ws : option string;
  refreshThreadsTimer : option positive;
}.

(** One child of the event log: the time it was written, its kind and the
    payload it shows (a string payload is shown as it is, any other value
    through [JSON.stringify]). *)
Record event_line : Type := mkLine {
  line_ts : Z;
  line_kind : string;
  line_payload : value;
}.

(** The part of [els] the script reads back.  [None] (or [false]) is an
    element that [document.getElementById] did not find. *)
Record els : Type := mkEls {
  tokenInput : option string;
  workspaceSelect : bool;
  threadIdInput : option string;
  accessModeSelect : option string;
  messageInput : option string;
  eventsLog : option (list event_line);
}.

(** A pending [setTimeout]: its handle and the time it is due. *)
Record timer : Type := mkTimer {
  timer_id : positive;
  timer_due : Z;
}.

#[global] Instance timer_eq_dec : EqDecision timer.
Proof. solve_decision. Defined.

Record world : Type := mkWorld {
  st : state;
  dom : els;
  localStorage : gmap string string;
  clock : Z;
  timers : list timer;
  next_timer : positive;
}.

Definition with_st (f : state -> state) (w : world) : world :=
  mkWorld (f (st w)) (dom w) (localStorage w) (clock w) (timers w) (next_timer w).
Definition with_dom (f : els -> els) (w : world) : world :=
  mkWorld (st w) (f (dom w)) (localStorage w) (clock w) (timers w) (next_timer w).
Definition with_localStorage (f : gmap string string -> gmap string string)
    (w : world) : world :=
  mkWorld (st w) (dom w) (f (localStorage w)) (clock w) (timers w) (next_timer w).

Definition set_token (v : string) (s : state) : state :=
  mkState v (workspaces s) (activeWorkspaceId s) (threads s) (activeThreadId s)
    (ws s) (refreshThreadsTimer s).
Definition set_workspaces (v : list value) (s : state) : state :=
  mkState (token s) v (activeWorkspaceId s) (threads s) (activeThreadId s)
    (ws s) (refreshThreadsTimer s).
Definition set_activeWorkspaceId (v : string) (s : state) : state :=
  mkState (token s) (workspaces s) v (threads s) (activeThreadId s)
    (ws s) (refreshThreadsTimer s).
Definition set_threads (v : list value) (s : state) : state :=
  mkState (token s) (workspaces s) (activeWorkspaceId s) v (activeThreadId s)
    (ws s) (refreshThreadsTimer s).
Definition set_activeThreadId (v : string) (s : state) : state :=
  mkState (token s) (workspaces s) (activeWorkspaceId s) (threads s) v
    (ws s) (refreshThreadsTimer s).
Definition set_refreshThreadsTimer (v : option positive) (s : state) : state :=
  mkState (token s) (workspaces s) (activeWorkspaceId s) (threads s)
    (activeThreadId s) (ws s) v.

(** [if (el) el.value = v] *)
Definition assign (v : string) (el : option string) : option string :=
  match el with
  | Some _ => Some v
  | None => None
  end.

Definition set_tokenInput (v : string) (e : els) : els :=
  mkEls (assign v (tokenInput e)) (workspaceSelect e) (threadIdInput e)
    (accessModeSelect e) (messageInput e) (eventsLog e).
Definition set_threadIdInput (v : string) (e : els) : els :=
  mkEls (tokenInput e) (workspaceSelect e) (assign v (threadIdInput e))
    (accessModeSelect e) (messageInput e) (eventsLog e).
Definition set_messageInput (v : string) (e : els) : els :=
  mkEls (tokenInput e) (workspaceSelect e) (threadIdInput e)
    (accessModeSelect e) (assign v (messageInput e)) (eventsLog e).
Definition set_eventsLog (v : option (list event_line)) (e : els) : els :=
  mkEls (tokenInput e) (workspaceSelect e) (threadIdInput e)
    (accessModeSelect e) (messageInput e) v.

(** [(el && el.value) || ""] *)
Definition value_of (el : option string) : string := default "" el.

(** ** Errors, requests and tasks *)

Record js_error : Type := mkError {
  err_name : string;
  err_message : string;
}.

(** [new Error(message)] *)
Definition Error (message : string) : js_error := mkError "Error" message.

(** [String(error)] *)
Definition err_toString (e : js_error) : string :=
  if String.eqb (err_message e) "" then err_name e
  else err_name e +:+ ": " +:+ err_message e.

(** The [options] argument of [api]. [opt_body] is the value handed to
    [JSON.stringify]; its text is never empty, so a body that is given is
    truthy. *)
Record req_options : Type := mkOptions {
  opt_method : option string;
  opt_body : option value;
  opt_headers : option (gmap string string);
}.

Definition no_options : req_options := mkOptions None None None.

(** What reaches [fetch]: the path, the query parameters handed to
    [URLSearchParams] (before encoding), and the options with their headers
    filled in. *)
Record request : Type := mkRequest {
  req_path : string;
  req_query : list (string * string);
  req_method : option string;
  req_body : option value;
  req_headers : gmap string string;
}.

Record response : Type := mkResponse {
  ok : bool;
  status : Z;
  statusText : string;
  text : string;
}.

(** [await fetch(..)] followed by [await response.text()] either delivers the
    response with its body or rejects. *)
Inductive fetch_outcome : Type :=
| Responded (r : response)
| Rejected (e : js_error).

Inductive task (A : Type) : Type :=
| Ret (a : A)
| Throw (e : js_error)
| Get (k : world -> task A)
| Put (w : world) (k : task A)
| Fetch (r : request) (k : fetch_outcome -> task A).

Arguments Ret {A} a.
Arguments Throw {A} e.
Arguments Get {A} k.
Arguments Put {A} w k.
Arguments Fetch {A} r k.

Fixpoint bind {A B : Type} (t : task A) (f : A -> task B) : task B :=
  match t with
  | Ret a => f a
  | Throw e => Throw e
  | Get k => Get (fun w => bind (k w) f)
  | Put w k => Put w (bind k f)
  | Fetch r k => Fetch r (fun o => bind (k o) f)
  end.

#[global] Instance task_ret : MRet task := @Ret.
#[global] Instance task_bind : MBind task := fun A B f t => bind t f.

(** [try { t } catch (error) { h error }] *)
Fixpoint try_catch {A : Type} (t : task A) (h : js_error -> task A) : task A :=
  match t with
  | Ret a => Ret a
  | Throw e => h e
  | Get k => Get (fun w => try_catch (k w) h)
  | Put w k => Put w (try_catch k h)
  | Fetch r k => Fetch r (fun o => try_catch (k o) h)
  end.

Definition get_world : task world := Get Ret.
Definition modify (f : world -> world) : task unit := Get (fun w => Put (f w) (Ret tt)).
Definition fetch (r : request) : task fetch_outcome := Fetch r Ret.

(** How far a task gets without waiting: it returns, throws, or is suspended
    on a request with the rest of the function as continuation. *)
Inductive progress (A : Type) : Type :=
| Finished (a : A)
| Failed (e : js_error)
| Blocked (r : request) (k : fetch_outcome -> task A).

Arguments Finished {A} a.
Arguments Failed {A} e.
Arguments Blocked {A} r k.

Fixpoint run {A : Type} (t : task A) (w : world) : world * progress A :=
  match t with
  | Ret a => (w, Finished a)
  | Throw e => (w, Failed e)
  | Get k => run (k w) w
  | Put w' k => run k w'
  | Fetch r k => (w, Blocked r k)
  end.

(** Answering the requests of a task one after the other, with nothing else
    happening in between. *)
Fixpoint feed {A : Type} (p : world * progress A) (outcomes : list fetch_outcome)
    : world * progress A :=
  match outcomes with
  | [] => p
  | o :: rest =>
      match p with
      | (w, Blocked _ k) => feed (run (k o) w) rest
      | _ => p
      end
  end.

Definition complete {A : Type} (t : task A) (outcomes : list fetch_outcome)
    (w : world) : world * progress A :=
  feed (run t w) outcomes.

(** The request a suspended task is waiting for. *)
Definition issued {A : Type} (s : progress A) : option request :=
  match s with
  | Blocked r _ => Some r
  | _ => None
  end.

(** ** A JSON reader for the examples

    [Lite.parse] reads the fragment of JSON without string escapes, fractions
    and exponents, and answers [None] on anything else.  It stands in for
    [JSON.parse] wherever the script is run on a concrete document. *)

Module Lite.

Definition dq : ascii := ascii_of_nat 34.

(** [q s] is [s] between double quotes. *)
Definition q (s : string) : string := String dq s +:+ String dq EmptyString.

Fixpoint skip_ws (s : list ascii) : list ascii :=
  match s with
  | c :: rest => if is_space c then skip_ws rest else s
  | [] => []
  end.

Definition digit (c : ascii) : option Z :=
  let n := nat_of_ascii c in
  if (Nat.leb 48 n && Nat.leb n 57)%bool then Some (Z.of_nat n - 48) else None.

Fixpoint digits (acc : Z) (s : list ascii) : Z * list ascii :=
  match s with
  | c :: rest =>
      match digit c with
      | Some d => digits (10 * acc + d) rest
      | None => (acc, s)
      end
  | [] => (acc, [])
  end.

(** A number whose first digit is [d]: no digit may follow a leading zero. *)
Definition number (sign : Z -> Z) (d : Z) (rest : list ascii)
    : option (value * list ascii) :=
  let (n, rest') := digits d rest in
  match rest with
  | c :: _ =>
      if (d =? 0) && bool_decide (is_Some (digit c)) then None
      else Some (VNum (sign n), rest')
  | [] => Some (VNum (sign n), rest')
  end.

(** The characters of a string literal up to its closing quote. *)
Fixpoint chars (s : list ascii) : option (string * list ascii) :=
  match s with
  | c :: rest =>
      if Ascii.eqb c dq then Some (EmptyString, rest)
      else if Ascii.eqb c "\"%char then None
      else match chars rest with
           | Some (str, rest') => Some (String c str, rest')
           | None => None
           end
  | [] => None
  end.

Section Sequences.

Variable element : list ascii -> option (value * list ascii).

(** [v , v , ... ]] after the opening bracket and a first look ahead. *)
Fixpoint items (n : nat) (s : list ascii) : option (list value * list ascii) :=
  match n with
  | O => None
  | S n' =>
      match element s with
      | Some (v, rest) =>
          match skip_ws rest with
          | ","%char :: rest' =>
              match items n' rest' with
              | Some (vs, rest'') => Some (v :: vs, rest'')
              | None => None
              end
          | "]"%char :: rest' => Some ([v], rest')
          | _ => None
          end
      | None => None
      end
  end.

(** [k : v , k : v , ... }] after the opening brace; of a key written twice
    the later value stays. *)
Fixpoint members (n : nat) (s : list ascii)
    : option (list (string * value) * list ascii) :=
  match n with
  | O => None
  | S n' =>
      match skip_ws s with
      | c :: rest =>
          if Ascii.eqb c dq then
            match chars rest with
            | Some (k, rest1) =>
                match skip_ws rest1 with
                | ":"%char :: rest2 =>
                    match element rest2 with
                    | Some (v, rest3) =>
                        match skip_ws rest3 with
                        | ","%char :: rest4 =>
                            match members n' rest4 with
                            | Some (kvs, rest5) =>
                                if existsb (fun kv => String.eqb (fst kv) k) kvs
                                then Some (kvs, rest5)
                                else Some ((k, v) :: kvs, rest5)
                            | None => None
                            end
                        | "}"%char :: rest4 => Some ([(k, v)], rest4)
                        | _ => None
                        end
                    | None => None
                    end
                | _ => None
                end
            | None => None
            end
          else None
      | [] => None
      end
  end.

End Sequences.

Fixpoint element (fuel : nat) (s : list ascii) : option (value * list ascii) :=
  match fuel with
  | O => None
  | S fuel' =>
      match skip_ws s with
      | "n"%char :: "u"%char :: "l"%char :: "l"%char :: rest => Some (VNull, rest)
      | "t"%char :: "r"%char :: "u"%char :: "e"%char :: rest => Some (VBool true, rest)
      | "f"%char :: "a"%char :: "l"%char :: "s"%char :: "e"%char :: rest =>
          Some (VBool false, rest)
      | "["%char :: rest =>
          match skip_ws rest with
          | "]"%char :: rest' => Some (VArr [], rest')
          | _ =>
              match items (element fuel') (length rest) rest with
              | Some (vs, rest') => Some (VArr vs, rest')
              | None => None
              end
          end
      | "{"%char :: rest =>
          match skip_ws rest with
          | "}"%char :: rest' => Some (VObj [], rest')
          | _ =>
              match members (element fuel') (length rest) rest with
              | Some (kvs, rest') => Some (VObj kvs, rest')
              | None => None
              end
          end
      | "-"%char :: c :: rest =>
          match digit c with
          | Some d => number (fun n => - n) d rest
          | None => None
          end
      | c :: rest =>
          if Ascii.eqb c dq then
            match chars rest with
            | Some (str, rest') => Some (VStr str, rest')
            | None => None
            end
          else
            match digit c with
            | Some d => number (fun n => n) d rest
            | None => None
            end
      | [] => None
      end
  end.

Definition parse (s : string) : option value :=
  let input := list_ascii_of_string s in
  match element (length input) input with
  | Some (v, rest) =>
      match skip_ws rest with
      | [] => Some v
      | _ => None
      end
  | None => None
  end.

End Lite.

(** ** The locale helpers ([utils/locale.ts]) *)

Module Locale.

Inductive AppLocale : Type := en | zh_CN.

(** The string an [AppLocale] is. *)
Definition text (locale : AppLocale) : string :=
  match locale with
  | en => "en"
  | zh_CN => "zh-CN"
  end.

Definition APP_LOCALE_STORAGE_KEY : string := "codexmonitor.locale".

(** [s.toLowerCase()], on the ASCII letters. *)
Definition lower (c : ascii) : ascii :=
  let n := nat_of_ascii c in
  if (Nat.leb 65 n && Nat.leb n 90)%bool then ascii_of_nat (n + 32) else c.

Fixpoint toLowerCase (s : string) : string :=
  match s with
  | EmptyString => EmptyString
  | String c rest => String (lower c) (toLowerCase rest)
  end.

(** [value] is a string, or null or undefined ([None]). *)
Definition normalizeAppLocale (value : option string) : AppLocale :=
  match value with
  | None => en
  | Some v =>
      if String.eqb v "" then en
      else
        let normalized := toLowerCase (trim v) in
        if (String.eqb normalized "zh" || String.eqb normalized "zh-cn"
            || String.prefix "zh-" normalized)%bool
        then zh_CN
        else en
  end.

(** What the helpers see of their surroundings: whether [window] and
    [navigator] exist, [navigator.language], and the local storage. *)
Record browser : Type := mkBrowser {
  has_window : bool;
  has_navigator : bool;
  navigator_language : option string;
  storage : gmap string string;
}.

Definition detectDefaultAppLocale (b : browser) : AppLocale :=
  if negb (has_navigator b) then en
  else normalizeAppLocale (navigator_language b).

Definition getStoredAppLocale (b : browser) : AppLocale :=
  if negb (has_window b) then en
  else
    match storage b !! APP_LOCALE_STORAGE_KEY with
    | Some stored =>
        if negb (String.eqb stored "") then normalizeAppLocale (Some stored)
        else detectDefaultAppLocale b
    | None => detectDefaultAppLocale b
    end.

Definition setStoredAppLocale (locale : AppLocale) (b : browser) : browser :=
  if negb (has_window b) then b
  else mkBrowser (has_window b) (has_navigator b) (navigator_language b)
         (<[APP_LOCALE_STORAGE_KEY := text locale]> (storage b)).

Definition isChineseLocale (locale : AppLocale) : bool :=
  match locale with
  | zh_CN => true
  | en => false
  end.

End Locale.

(** ** Worlds and documents for the examples *)

(** The [state] literal of the script, a page with every element present, and
    the world the script starts in. *)
Definition initial_state : state := mkState "" [] "" [] "" None None.

Definition page : els :=
  mkEls (Some "") true (Some "") (Some "current") (Some "") (Some []).

Definition boot : world := mkWorld initial_state page ∅ 0 [] 1%positive.

Definition ok_response (body : string) : response := mkResponse true 200 "OK" body.

(** [{"workspaces":[{"id":"w1"},{"id":"w2"}]}] *)
Definition workspaces_doc : string :=
  "{" +:+ Lite.q "workspaces" +:+ ":[{" +:+ Lite.q "id" +:+ ":" +:+ Lite.q "w1"
  +:+ "},{" +:+ Lite.q "id" +:+ ":" +:+ Lite.q "w2" +:+ "}]}".

(** [{"workspaces":[{"id":0},{"id":"w2"}]}] *)
Definition zero_id_doc : string :=
  "{" +:+ Lite.q "workspaces" +:+ ":[{" +:+ Lite.q "id" +:+ ":0},{"
  +:+ Lite.q "id" +:+ ":" +:+ Lite.q "w2" +:+ "}]}".

(** [{"workspaces":[{"id":"w3"},null]}] *)
Definition null_entry_doc : string :=
  "{" +:+ Lite.q "workspaces" +:+ ":[{" +:+ Lite.q "id" +:+ ":" +:+ Lite.q "w3"
  +:+ "},null]}".

(** [{"threads":[{"id":"t1","updatedAt":100}]}] *)
Definition threads_doc : string :=
  "{" +:+ Lite.q "threads" +:+ ":[{" +:+ Lite.q "id" +:+ ":" +:+ Lite.q "t1"
  +:+ "," +:+ Lite.q "updatedAt" +:+ ":100}]}".

(** [{"threads":[{"id":"t2"},{"id":"t1","updatedAt":100}]}] *)
Definition threads_doc2 : string :=
  "{" +:+ Lite.q "threads" +:+ ":[{" +:+ Lite.q "id" +:+ ":" +:+ Lite.q "t2"
  +:+ "},{" +:+ Lite.q "id" +:+ ":" +:+ Lite.q "t1"
  +:+ "," +:+ Lite.q "updatedAt" +:+ ":100}]}".

(** [{"threadId":"t2"}] *)
Definition started_doc : string :=
  "{" +:+ Lite.q "threadId" +:+ ":" +:+ Lite.q "t2" +:+ "}".

(** [{"error":""}] *)
Definition empty_error_doc : string :=
  "{" +:+ Lite.q "error" +:+ ":" +:+ Lite.q "" +:+ "}".

(** [{"error":"unauthorized"}] *)
Definition unauthorized_doc : string :=
  "{" +:+ Lite.q "error" +:+ ":" +:+ Lite.q "unauthorized" +:+ "}".

(** [{"method":"app-server-event","params":{"workspace_id":W,
      "message":{"method":"turn-completed","params":{"threadId":T}}}}] *)
Definition event_doc (workspace thread : string) : string :=
  "{" +:+ Lite.q "method" +:+ ":" +:+ Lite.q "app-server-event" +:+ ","
  +:+ Lite.q "params" +:+ ":{" +:+ Lite.q "workspace_id" +:+ ":" +:+ Lite.q workspace
  +:+ "," +:+ Lite.q "message" +:+ ":{" +:+ Lite.q "method" +:+ ":"
  +:+ Lite.q "turn-completed" +:+ "," +:+ Lite.q "params" +:+ ":{"
  +:+ Lite.q "threadId" +:+ ":" +:+ Lite.q thread +:+ "}}}}".

(** [{"method":"app-server-event","params":{"message":
      {"method":"turn-completed","params":{"threadId":T}}}}]: an event that
    names no workspace. *)
Definition orphan_event_doc (thread : string) : string :=
  "{" +:+ Lite.q "method" +:+ ":" +:+ Lite.q "app-server-event" +:+ ","
  +:+ Lite.q "params" +:+ ":{" +:+ Lite.q "message" +:+ ":{" +:+ Lite.q "method"
  +:+ ":" +:+ Lite.q "turn-completed" +:+ "," +:+ Lite.q "params" +:+ ":{"
  +:+ Lite.q "threadId" +:+ ":" +:+ Lite.q thread +:+ "}}}}".

Definition event_value (workspace thread : string) : value :=
  VObj [("method", VStr "app-server-event");
        ("params",
         VObj [("workspace_id", VStr workspace);
               ("message",
                VObj [("method", VStr "turn-completed");
                      ("params", VObj [("threadId", VStr thread)])])])].

(** The world once workspaces [w1], [w2] and the thread [t1] of [w1] have
    been fetched. *)
Definition synced : world :=
  mkWorld
    (mkState "" [VObj [("id", VStr "w1")]; VObj [("id", VStr "w2")]] "w1"
       [VObj [("id", VStr "t1"); ("updatedAt", VNum 100)]] "t1" None None)
    (mkEls (Some "") true (Some "t1") (Some "current") (Some "") (Some []))
    ∅ 0 [] 1%positive.

(** The operator has typed only blanks into the message box. *)
Definition synced_blank_message : world := with_dom (set_messageInput "   ") synced.

(** The operator has typed a message. *)
Definition synced_hello : world := with_dom (set_messageInput " hello ") synced.

(** A stored credential, and blanks typed into the token box. *)
Definition credentialed : world :=
  mkWorld (set_token "secret" initial_state)
    (mkEls (Some "   ") true (Some "") (Some "current") (Some "") (Some []))
    {[ TOKEN_STORAGE_KEY := "secret" ]} 0 [] 1%positive.

Definition burst : list (string * value) := repeat ("ws/event", VNull) 301.

(** ** The script

    Everything below is parametric in the browser's [JSON.parse], which
    returns [None] where the real one throws a [SyntaxError]. *)

Section Console.

Variable JSON_parse : string -> option value.

Definition authHeaders (s : state) (extra : option (gmap string string))
    : gmap string string :=
  let headers := default ∅ extra in
  if negb (String.eqb (token s) "")
  then <["Authorization" := "Bearer " +:+ token s]> headers
  else headers.

(** [!headers[k]] *)
Definition header_missing (headers : gmap string string) (k : string) : bool :=
  match headers !! k with
  | Some v => String.eqb v ""
  | None => true
  end.

(** The body of a response as [api] decodes it. *)
Definition decode (rawText : string) : value :=
  if negb (String.eqb rawText "") then
    match JSON_parse rawText with
    | Some payload => payload
    | None => VObj [("raw", VStr rawText)]
    end
  else VNull.

Definition failure_message (r : response) (payload : value) : string :=
  if truthy (js_and payload (prop payload "error"))
  then js_String (prop payload "error")
  else string_of_Z (status r) +:+ " " +:+ statusText r.

(** Lines 71-76 of [api]: the options and headers handed to [fetch]. *)
Definition api_request (s : state) (path : string) (query : list (string * string))
    (options : req_options) : request :=
  let headers := authHeaders s (opt_headers options) in
  let headers :=
    if (bool_decide (is_Some (opt_body options))
        && header_missing headers "Content-Type")%bool
    then <["Content-Type" := "application/json"]> headers
    else headers in
  mkRequest path query (opt_method options) (opt_body options) headers.

(** Lines 79-95 of [api]: what it makes of the outcome of the call. *)
Definition api_receive (outcome : fetch_outcome) : task value :=
  match outcome with
  | Rejected e => Throw e
  | Responded r =>
      let payload := decode (text r) in
      if negb (ok r) then Throw (Error (failure_message r payload))
      else mret payload
  end.

Definition api (path : string) (query : list (string * string))
    (options : req_options) : task value :=
  w ← get_world;
  outcome ← fetch (api_request (st w) path query options);
  api_receive outcome.

Definition extractThreadList (rawResponse : value) : list value :=
  match rawResponse with
  | VArr _ | VObj _ =>
      match prop rawResponse "threads" with
      | VArr threads => threads
      | _ =>
          let result := prop rawResponse "result" in
          match (if truthy result then prop result "data" else VUndefined) with
          | VArr data => data
          | _ => array_or_empty (prop rawResponse "data")
          end
      end
  | _ => []
  end.

Definition extractThreadId (thread : value) : string :=
  js_String (js_or (prop thread "id") (VStr "")).

(** The [while] loop of [appendEvent]: each round drops the last child, so
    it ends within [length log] rounds. *)
Fixpoint evict (rounds : nat) (log : list event_line) : list event_line :=
  match rounds with
  | O => log
  | S rounds' =>
      if (MAX_EVENT_LINES <? length log)%nat
      then evict rounds' (removelast log)
      else log
  end.

(** The log's children are kept newest first ([prepend]). *)
Definition appendEvent (kind : string) (payload : value) (w : world) : world :=
  match eventsLog (dom w) with
  | None => w
  | Some log =>
      let log := mkLine (clock w) kind payload :: log in
      with_dom (set_eventsLog (Some (evict (length log) log))) w
  end.

(** A burst of events, appended in order. *)
Definition appendEvents (events : list (string * value)) (w : world) : world :=
  fold_left (fun w e => appendEvent (fst e) (snd e) w) events w.

(** The lines such a burst writes at time [now], oldest first. *)
Definition lines_of (now : Z) (events : list (string * value)) : list event_line :=
  map (fun e => mkLine now (fst e) (snd e)) events.

(** Writing the error of a failed action to the log. *)
Definition log_error (kind : string) (error : js_error) : task unit :=
  modify (appendEvent kind (VStr (err_toString error))).

Definition selectThread (threadId : string) (w : world) : world :=
  with_dom (set_threadIdInput threadId) (with_st (set_activeThreadId threadId) w).

(** A property read on a null entry of [state.workspaces]. *)
Definition null_read : js_error :=
  mkError "TypeError" "Cannot read properties of null (reading 'id')".

(** The value [renderWorkspaces] leaves in [state.activeWorkspaceId], from
    the stored collection and the id held before. *)
Definition reconcile_workspace (stored : list value) (previous : string) : string :=
  if (length stored =? 0)%nat then ""
  else if existsb (fun w0 => String.eqb (js_String (prop w0 "id")) previous) stored
  then previous
  else js_String (js_or (prop (hd VUndefined stored) "id") (VStr "")).

(** [renderWorkspaces]: the loop that fills the select reads [workspace.id]
    of every entry, so a null entry makes it throw; the rest reconciles the
    active workspace id. *)
Definition renderWorkspaces : task unit :=
  w ← get_world;
  if negb (workspaceSelect (dom w)) then mret tt
  else
    let previous := activeWorkspaceId (st w) in
    if existsb nullish (workspaces (st w)) then Throw null_read
    else if (length (workspaces (st w)) =? 0)%nat
    then modify (with_st (set_activeWorkspaceId ""))
    else
      let next :=
        if existsb (fun w0 => String.eqb (js_String (prop w0 "id")) previous)
             (workspaces (st w))
        then previous
        else js_String (js_or (prop (hd VUndefined (workspaces (st w))) "id") (VStr "")) in
      modify (with_st (set_activeWorkspaceId next)).

(** The value lines 290-296 of [refreshThreads] leave in
    [state.activeThreadId], from the fetched list and the id held before. *)
Definition reconcile_thread (fetched : list value) (previous : string) : string :=
  let id :=
    if (negb (String.eqb previous "")
        && negb (existsb (fun thread => String.eqb (extractThreadId thread) previous)
                   fetched))%bool
    then "" else previous in
  if (String.eqb id "" && (0 <? length fetched)%nat)%bool
  then extractThreadId (hd VUndefined fetched)
  else id.

(** What [refreshThreads] does with the payload once it has arrived. *)
Definition store_threads (payload : value) (w : world) : world :=
  let w := with_st (set_threads (extractThreadList payload)) w in
  let w :=
    if (negb (String.eqb (activeThreadId (st w)) "")
        && negb (existsb (fun thread =>
                   String.eqb (extractThreadId thread) (activeThreadId (st w)))
                   (threads (st w))))%bool
    then with_st (set_activeThreadId "") w
    else w in
  let w :=
    if (String.eqb (activeThreadId (st w)) ""
        && (0 <? length (threads (st w)))%nat)%bool
    then with_st (set_activeThreadId
                    (extractThreadId (hd VUndefined (threads (st w))))) w
    else w in
  with_dom (set_threadIdInput (activeThreadId (st w))) w.

Definition threads_query (workspaceId : string) : list (string * string) :=
  [("workspaceId", workspaceId); ("limit", "40"); ("sortKey", "updated_at")].

Definition refreshThreads : task unit :=
  w ← get_world;
  if String.eqb (activeWorkspaceId (st w)) ""
  then modify (with_st (set_threads []))
  else
    payload ← api "/api/threads" (threads_query (activeWorkspaceId (st w))) no_options;
    modify (store_threads payload).

Definition refreshWorkspaces : task unit :=
  payload ← api "/api/workspaces" [] no_options;
  modify (with_st (set_workspaces (array_or_empty (prop payload "workspaces"))));;
  renderWorkspaces;;
  w ← get_world;
  if negb (String.eqb (activeWorkspaceId (st w)) "")
  then refreshThreads
  else modify (with_st (set_threads [])).

(** The callback [scheduleRefreshThreads] hands to [setTimeout]. *)
Definition refreshThreads_timeout : task unit :=
  modify (with_st (set_refreshThreadsTimer None));;
  try_catch refreshThreads (log_error "refresh/error").

Definition REFRESH_DELAY : Z := 600.

Definition scheduleRefreshThreads (workspaceId : string) (w : world) : world :=
  if (String.eqb workspaceId ""
      || negb (String.eqb workspaceId (activeWorkspaceId (st w))))%bool
  then w
  else if bool_decide (is_Some (refreshThreadsTimer (st w))) then w
  else
    let id := next_timer w in
    mkWorld (set_refreshThreadsTimer (Some id) (st w)) (dom w) (localStorage w)
      (clock w) (timers w ++ [mkTimer id (clock w + REFRESH_DELAY)])
      (Pos.succ id).

(** Time passing, and the browser running a timeout that is due. *)
Definition advance (dt : Z) (w : world) : world :=
  mkWorld (st w) (dom w) (localStorage w) (clock w + dt) (timers w) (next_timer w).

Definition drop_timer (t : timer) (w : world) : world :=
  mkWorld (st w) (dom w) (localStorage w) (clock w)
    (filter (fun t' => t' ≠ t) (timers w)) (next_timer w).

(** The browser runs the callback of a pending timeout once it is due, and
    not before. *)
Definition fire_timer (t : timer) (w : world) : option (world * progress unit) :=
  if (bool_decide (t ∈ timers w) && (timer_due t <=? clock w))%bool
  then Some (run refreshThreads_timeout (drop_timer t w))
  else None.

Definition startThread : task unit :=
  w ← get_world;
  if String.eqb (activeWorkspaceId (st w)) ""
  then Throw (Error "Select a workspace first")
  else
    payload ← api "/api/threads/start" []
      (mkOptions (Some "POST")
         (Some (VObj [("workspaceId", VStr (activeWorkspaceId (st w)))])) None);
    let threadId := js_String (js_or (prop payload "threadId") (VStr "")) in
    refreshThreads;;
    (if negb (String.eqb threadId "") then modify (selectThread threadId)
     else mret tt);;
    modify (appendEvent "thread/start" payload).

(** The thread id [resumeThread] and [sendMessage] act on. *)
Definition resolve_threadId (w : world) : string :=
  trim (str_or (value_of (threadIdInput (dom w)))
          (str_or (activeThreadId (st w)) "")).

Definition resumeThread : task unit :=
  w ← get_world;
  if String.eqb (activeWorkspaceId (st w)) ""
  then Throw (Error "Select a workspace first")
  else
    let threadId := resolve_threadId w in
    if String.eqb threadId "" then Throw (Error "Select a thread first")
    else
      payload ← api "/api/threads/resume" []
        (mkOptions (Some "POST")
           (Some (VObj [("workspaceId", VStr (activeWorkspaceId (st w)));
                        ("threadId", VStr threadId)])) None);
      modify (appendEvent "thread/resume" payload).

Definition sendMessage : task unit :=
  w ← get_world;
  if String.eqb (activeWorkspaceId (st w)) ""
  then Throw (Error "Select a workspace first")
  else
    let threadId := resolve_threadId w in
    if String.eqb threadId "" then Throw (Error "Select a thread first")
    else
      let text := trim (value_of (messageInput (dom w))) in
      if String.eqb text "" then Throw (Error "Enter a message first")
      else
        let accessMode := str_or (value_of (accessModeSelect (dom w))) "current" in
        payload ← api "/api/threads/message" []
          (mkOptions (Some "POST")
             (Some (VObj [("workspaceId", VStr (activeWorkspaceId (st w)));
                          ("threadId", VStr threadId);
                          ("text", VStr text);
                          ("accessMode", VStr accessMode)])) None);
        modify (with_dom (set_messageInput ""));;
        modify (appendEvent "thread/message" payload).


Definition saveTokenBtn_onclick (w : world) : world :=
  let w := with_st (set_token (trim (value_of (tokenInput (dom w))))) w in
  if negb (String.eqb (token (st w)) "")
  then with_localStorage (insert TOKEN_STORAGE_KEY (token (st w))) w
  else with_localStorage (delete TOKEN_STORAGE_KEY) w.

Definition clearTokenBtn_onclick (w : world) : world :=
  let w := with_st (set_token "") w in
  let w := with_dom (set_tokenInput "") w in
  with_localStorage (delete TOKEN_STORAGE_KEY) w.

(** [v === s] for a string literal [s] *)
Definition is_str (v : value) (s : string) : bool :=
  match v with
  | VStr s' => String.eqb s' s
  | _ => false
  end.

(** [String(params.workspace_id || params.workspaceId || "")] *)
Definition event_workspaceId (params : value) : string :=
  js_String (js_or (js_or (prop params "workspace_id") (prop params "workspaceId"))
               (VStr "")).

(** [String((message.params && (message.params.threadId ||
    message.params.thread_id)) || "")] *)
Definition event_threadId (message : value) : string :=
  js_String
    (js_or (js_and (prop message "params")
              (js_or (prop (prop message "params") "threadId")
                 (prop (prop message "params") "thread_id")))
       (VStr "")).

(** The app-server-event branch of the socket's [message] handler. *)
Definition on_app_server_event (payload : value) (w : world) : world :=
  let params := js_or (prop payload "params") (VObj []) in
  let workspaceId := event_workspaceId params in
  let message := js_or (prop params "message") (VObj []) in
  let appMethod := js_String (js_or (prop message "method") (VStr "")) in
  let w :=
    appendEvent ("app:" +:+ str_or appMethod "unknown")
      (VObj [("workspaceId", VStr workspaceId);
             ("message", js_or (prop message "params") (VObj []))]) w in
  let threadId := event_threadId message in
  if (negb (String.eqb threadId "")
      && String.eqb workspaceId (activeWorkspaceId (st w)))%bool
  then
    let w :=
      if String.eqb (activeThreadId (st w)) ""
      then with_dom (set_threadIdInput threadId)
             (with_st (set_activeThreadId threadId) w)
      else w in
    scheduleRefreshThreads workspaceId w
  else w.

(** The envelopes the handler answers before it looks at [method]. *)
Definition gateway_envelope (payload : value) : bool :=
  (is_str (prop payload "type") "gateway/ready"
   || is_str (prop payload "type") "gateway/error"
   || is_str (prop payload "type") "gateway/disconnected")%bool.

(** The socket's [message] handler; [data] is [event.data]. *)
Definition ws_onmessage (data : string) (w : world) : world :=
  match JSON_parse (str_or data "{}") with
  | None => appendEvent "ws/raw" (VStr data) w
  | Some payload =>
      if is_str (prop payload "type") "gateway/ready"
      then appendEvent "gateway/ready" payload w
      else if is_str (prop payload "type") "gateway/error"
      then appendEvent "gateway/error" (js_or (prop payload "message") payload) w
      else if is_str (prop payload "type") "gateway/disconnected"
      then appendEvent "gateway/disconnected" (js_or (prop payload "message") payload) w
      else if is_str (prop payload "method") "app-server-event"
      then on_app_server_event payload w
      else if (is_str (prop payload "method") "terminal-output"
               || is_str (prop payload "method") "terminal-exit")%bool
      then appendEvent (js_String (prop payload "method"))
             (js_or (prop payload "params") (VObj [])) w
      else appendEvent "ws/event" payload w
  end.

(** Whether the [message] handler throws before it has logged anything:
    in the app-server-event branch, [String] at lines 456 and 458 is applied
    to what the event gives as workspace id and as method. *)
Definition throws_before_logging (data : string) : bool :=
  match JSON_parse (str_or data "{}") with
  | None => false
  | Some payload =>
      let params := js_or (prop payload "params") (VObj []) in
      let message := js_or (prop params "message") (VObj []) in
      (negb (gateway_envelope payload)
       && is_str (prop payload "method") "app-server-event"
       && (String_throws (js_or (js_or (prop params "workspace_id")
                                   (prop params "workspaceId")) (VStr ""))
           || String_throws (js_or (prop message "method") (VStr ""))))%bool
  end.

(** ** The rest of the script

    The functions below need nothing the world does not have: what they
    render is given as a value, and the fields of the RPC panel and the
    page's location are arguments. *)

Definition double_quote : ascii := ascii_of_nat 34.

(** [s.replaceAll(c, by)] for a pattern of one character and a replacement
    without [$]. *)
Fixpoint replaceAll (c : ascii) (by_ : string) (s : string) : string :=
  match s with
  | EmptyString => EmptyString
  | String c' rest =>
      if Ascii.eqb c' c then by_ +:+ replaceAll c by_ rest
      else String c' (replaceAll c by_ rest)
  end.

Definition escapeHtml (text : string) : string :=
  replaceAll "'" "&#39;"
    (replaceAll double_quote "&quot;"
       (replaceAll ">" "&gt;"
          (replaceAll "<" "&lt;"
             (replaceAll "&" "&amp;" text)))).

(** The entity [escapeHtml] has for a character, or the character itself;
    a text escaped character by character; the characters that open or
    close markup. *)
Definition escape_char (c : ascii) : string :=
  if Ascii.eqb c "&" then "&amp;"
  else if Ascii.eqb c "<" then "&lt;"
  else if Ascii.eqb c ">" then "&gt;"
  else if Ascii.eqb c double_quote then "&quot;"
  else if Ascii.eqb c "'" then "&#39;"
  else String c EmptyString.

Fixpoint escape_each (s : string) : string :=
  match s with
  | EmptyString => EmptyString
  | String c rest => escape_char c +:+ escape_each rest
  end.

Definition markup_char (c : ascii) : bool :=
  (Ascii.eqb c "<" || Ascii.eqb c ">" || Ascii.eqb c double_quote
   || Ascii.eqb c "'")%bool.

Fixpoint every (p : ascii -> bool) (s : string) : bool :=
  match s with
  | EmptyString => true
  | String c rest => p c && every p rest
  end.

Definition threadDisplayName (thread : value) (index : nat) : string :=
  let preview := trim (js_String (js_or (prop thread "preview") (VStr ""))) in
  if negb (String.eqb preview "")
  then if (80 <? String.length preview)%nat
       then substring 0 80 preview +:+ "..."
       else preview
  else "Thread " +:+ string_of_Z (Z.of_nat index + 1).

(** One child [renderThreads] builds: whether it gets the class [active],
    its [dataset.threadId], its title, the id part of its meta line and the
    time stamp handed to [formatDate]; a click on it calls [selectThread]
    with [item_threadId]. *)
Record thread_item : Type := mkItem {
  item_active : bool;
  item_threadId : string;
  item_title : string;
  item_meta_id : string;
  item_updated : value;
}.

(** The children [renderThreads] builds from the state (none: the
    placeholder is shown). *)
Definition thread_items (s : state) : list thread_item :=
  imap (fun index thread =>
          let id := extractThreadId thread in
          mkItem (String.eqb id (activeThreadId s)) id
            (threadDisplayName thread index)
            (str_or id "(no id)")
            (js_or (js_or (js_or (prop thread "updatedAt") (prop thread "updated_at"))
                      (prop thread "createdAt"))
               (prop thread "created_at")))
    (threads s).

(** [renderDrawingsOverview] only writes markup, so [refreshDrawings] is its
    call. *)
Definition refreshDrawings : task unit :=
  payload ← api "/api/drawings" [] no_options;
  mret tt.

(** The fields of the RPC panel. *)
Record rpc_panel : Type := mkPanel {
  rpcMethodInput : option string;
  rpcParamsInput : option string;
}.

(** [runRpc]; it returns the payload it shows in the output box. *)
Definition runRpc (panel : rpc_panel) : task value :=
  let method := trim (value_of (rpcMethodInput panel)) in
  if String.eqb method "" then Throw (Error "RPC method is required")
  else
    let paramsText :=
      str_or (trim (str_or (value_of (rpcParamsInput panel)) "{}")) "{}" in
    match JSON_parse paramsText with
    | None => Throw (Error "Params must be valid JSON")
    | Some params =>
        api "/api/rpc" []
          (mkOptions (Some "POST")
             (Some (VObj [("method", VStr method); ("params", params)])) None)
    end.

(** The handlers [bindEvents] installs. *)
Definition pingBtn_onclick : task unit :=
  try_catch refreshWorkspaces (fun error => mret tt).

Definition refreshDrawingsBtn_onclick : task unit :=
  try_catch refreshDrawings (log_error "drawings/error").

Definition refreshWorkspacesBtn_onclick : task unit :=
  try_catch refreshWorkspaces (log_error "workspaces/error").

Definition refreshThreadsBtn_onclick : task unit :=
  try_catch refreshThreads (log_error "threads/error").

Definition startThreadBtn_onclick : task unit :=
  try_catch startThread (log_error "thread/start/error").

Definition resumeThreadBtn_onclick : task unit :=
  try_catch resumeThread (log_error "thread/resume/error").

Definition sendMessageBtn_onclick : task unit :=
  try_catch sendMessage (log_error "thread/message/error").

(** What the click on the run button leaves in the output box: the payload,
    or [String(error)]. *)
Definition runRpcBtn_onclick (panel : rpc_panel) : task (value + string) :=
  try_catch (payload ← runRpc panel; mret (inl payload))
    (fun error => mret (inr (err_toString error))).

Definition clearEventsBtn_onclick (w : world) : world :=
  match eventsLog (dom w) with
  | Some _ => with_dom (set_eventsLog (Some [])) w
  | None => w
  end.

Definition bootstrap : task unit :=
  modify (fun w =>
            with_st (set_token (default "" (localStorage w !! TOKEN_STORAGE_KEY))) w);;
  modify (fun w => with_dom (set_tokenInput (token (st w))) w);;
  try_catch refreshDrawings (log_error "drawings/init-error");;
  try_catch refreshWorkspaces (fun error => mret tt).

(** The push channel. [location.protocol], [location.host] and the text
    [URLSearchParams] makes of a query come from the browser. *)
Variable location_protocol : string.
Variable location_host : string.
Variable URLSearchParams_toString : list (string * string) -> string.

Definition set_ws (v : option string) (s : state) : state :=
  mkState (token s) (workspaces s) (activeWorkspaceId s) (threads s)
    (activeThreadId s) v (refreshThreadsTimer s).

Definition wsUrl (s : state) : string :=
  let proto := if String.eqb location_protocol "https:" then "wss" else "ws" in
  let query := if negb (String.eqb (token s) "") then [("token", token s)] else [] in
  let qs := URLSearchParams_toString query in
  proto +:+ "://" +:+ location_host +:+ "/ws/events"
  +:+ (if negb (String.eqb qs "") then "?" +:+ qs else "").

Definition connectWs (w : world) : world :=
  match ws (st w) with
  | Some _ => appendEvent "ws/info" (VStr "WebSocket is already connected.") w
  | None => with_st (set_ws (Some (wsUrl (st w)))) w
  end.

Definition ws_onopen (url : string) (w : world) : world :=
  appendEvent "ws/open" (VStr url) w.

Definition ws_onclose (w : world) : world :=
  with_st (set_ws None) (appendEvent "ws/close" (VStr "Connection closed") w).

Definition ws_onerror (w : world) : world :=
  appendEvent "ws/error" (VStr "WebSocket error") w.

Definition disconnectWs (w : world) : world := with_st (set_ws None) w.

(** What can happen to the push channel. *)
Inductive channel_event : Type :=
| ConnectClicked
| DisconnectClicked
| SocketOpened (url : string)
| SocketMessage (data : string)
| SocketError
| SocketClosed.

Definition channel_step (w : world) (e : channel_event) : world :=
  match e with
  | ConnectClicked => connectWs w
  | DisconnectClicked => disconnectWs w
  | SocketOpened url => ws_onopen url w
  | SocketMessage data => ws_onmessage data w
  | SocketError => ws_onerror w
  | SocketClosed => ws_onclose w
  end.

(** The error [api] throws on an outcome, if it throws. *)
Definition outcome_error (o : fetch_outcome) : option js_error :=
  match o with
  | Rejected e => Some e
  | Responded r =>
      if ok r then None
      else Some (Error (failure_message r (decode (text r))))
  end.

(** Whether a socket handle is held after some channel events, from whether
    one was held before. *)
Definition handle_after (held : bool) (events : list channel_event) : bool :=
  fold_left (fun held e =>
               match e with
               | ConnectClicked => true
               | DisconnectClicked | SocketClosed => false
               | SocketOpened _ | SocketMessage _ | SocketError => held
               end) events held.

(** The thread field, if the page has one, shows the active thread id. *)
Definition field_in_sync (w : world) : Prop :=
  forall shown, threadIdInput (dom w) = Some shown -> shown = activeThreadId (st w).

(** ** Running tasks *)

Lemma run_bind {A B : Type} (t : task A) (f : A -> task B) (w : world) :
  run (t ≫= f) w =
  match run t w with
  | (w', Finished a) => run (f a) w'
  | (w', Failed e) => (w', Failed e)
  | (w', Blocked r k) => (w', Blocked r (fun o => k o ≫= f))
  end.
Proof.
  change (t ≫= f) with (bind t f).
  revert w. induction t as [a | e | k IH | w' k IH | r k IH]; intros w; simpl.
  - reflexivity.
  - reflexivity.
  - apply IH.
  - apply IH.
  - reflexivity.
Qed.

Lemma run_try_catch {A : Type} (t : task A) (h : js_error -> task A) (w : world) :
  run (try_catch t h) w =
  match run t w with
  | (w', Finished a) => (w', Finished a)
  | (w', Failed e) => run (h e) w'
  | (w', Blocked r k) => (w', Blocked r (fun o => try_catch (k o) h))
  end.
Proof.
  revert w. induction t as [a | e | k IH | w' k IH | r k IH]; intros w; simpl.
  - reflexivity.
  - reflexivity.
  - apply IH.
  - apply IH.
  - reflexivity.
Qed.

Lemma run_modify (f : world -> world) (w : world) :
  run (modify f) w = (f w, Finished tt).
Proof. reflexivity. Qed.

Lemma run_api (path : string) (query : list (string * string))
    (options : req_options) (w : world) :
  run (api path query options) w
  = (w, Blocked (api_request (st w) path query options) api_receive).
Proof. reflexivity. Qed.

Lemma run_api_receive (o : fetch_outcome) (w : world) :
  run (api_receive o) w =
  match o with
  | Rejected e => (w, Failed e)
  | Responded r =>
      if ok r then (w, Finished (decode (text r)))
      else (w, Failed (Error (failure_message r (decode (text r)))))
  end.
Proof. destruct o as [r | e]; simpl; [destruct (ok r)|]; reflexivity. Qed.

(** ** String facts *)

Lemma eqb_empty_false (s : string) : s <> "" -> String.eqb s "" = false.
Proof. intros H. apply String.eqb_neq. exact H. Qed.

Lemma str_or_empty_r (s : string) : str_or s "" = s.
Proof. unfold str_or. destruct (String.eqb_spec s ""); congruence. Qed.

(** ** The event log *)

Lemma evict_take (rounds : nat) (log : list event_line) :
  (length log <= rounds + MAX_EVENT_LINES)%nat ->
  evict rounds log = take MAX_EVENT_LINES log.
Proof.
  revert log. induction rounds as [| rounds IH]; intros log Hlen; simpl.
  - symmetry. apply take_ge. lia.
  - destruct (Nat.ltb_spec MAX_EVENT_LINES (length log)) as [Hover | Hfit].
    + rewrite IH.
      * rewrite removelast_firstn_len, take_take. f_equal. lia.
      * rewrite removelast_firstn_len, length_take. lia.
    + symmetry. apply take_ge. exact Hfit.
Qed.

Lemma take_app_take {A : Type} (n : nat) (l1 l2 : list A) :
  take n (l1 ++ take n l2) = take n (l1 ++ l2).
Proof.
  rewrite !take_app, take_take. do 2 f_equal. lia.
Qed.

Lemma appendEvent_log (kind : string) (payload : value) (w : world)
    (log : list event_line) :
  eventsLog (dom w) = Some log ->
  appendEvent kind payload w
  = with_dom (set_eventsLog
                (Some (take MAX_EVENT_LINES (mkLine (clock w) kind payload :: log)))) w.
Proof.
  intros Hlog. unfold appendEvent. rewrite Hlog.
  rewrite evict_take by lia. reflexivity.
Qed.

Lemma appendEvent_no_log (kind : string) (payload : value) (w : world) :
  eventsLog (dom w) = None -> appendEvent kind payload w = w.
Proof. intros Hlog. unfold appendEvent. rewrite Hlog. reflexivity. Qed.

(** [appendEvent] touches nothing but the log. *)
Lemma appendEvent_st (kind : string) (payload : value) (w : world) :
  st (appendEvent kind payload w) = st w.
Proof. unfold appendEvent. destruct (eventsLog (dom w)); reflexivity. Qed.

Lemma appendEvent_timers (kind : string) (payload : value) (w : world) :
  timers (appendEvent kind payload w) = timers w
  /\ clock (appendEvent kind payload w) = clock w
  /\ next_timer (appendEvent kind payload w) = next_timer w
  /\ localStorage (appendEvent kind payload w) = localStorage w.
Proof. unfold appendEvent. destruct (eventsLog (dom w)); auto. Qed.

Lemma appendEvent_threadIdInput (kind : string) (payload : value) (w : world) :
  threadIdInput (dom (appendEvent kind payload w)) = threadIdInput (dom w).
Proof. unfold appendEvent. destruct (eventsLog (dom w)); reflexivity. Qed.

Lemma appendEvents_log (events : list (string * value)) (w : world)
    (log : list event_line) :
  eventsLog (dom w) = Some log ->
  events <> [] ->
  eventsLog (dom (appendEvents events w))
  = Some (take MAX_EVENT_LINES (rev (lines_of (clock w) events) ++ log)).
Proof.
  revert w log. induction events as [| e events IH]; intros w log Hlog Hne.
  - congruence.
  - unfold appendEvents. simpl fold_left.
    pose proof (appendEvent_log (fst e) (snd e) w log Hlog) as Hone.
    destruct events as [| e' events].
    + simpl. rewrite Hone. reflexivity.
    + fold (appendEvents (e' :: events) (appendEvent (fst e) (snd e) w)).
      erewrite IH; [| rewrite Hone; reflexivity | discriminate].
      f_equal.
      assert (clock (appendEvent (fst e) (snd e) w) = clock w) as ->
        by apply appendEvent_timers.
      set (older := lines_of (clock w) (e' :: events)).
      set (line := mkLine (clock w) (fst e) (snd e)).
      change (lines_of (clock w) (e :: e' :: events)) with (line :: older).
      change (rev (line :: older)) with (rev older ++ [line]).
      rewrite <- app_assoc.
      change ([line] ++ log) with (line :: log).
      apply take_app_take.
Qed.

(** C9. The event log never holds more than 300 entries: whatever it held
    before, after any burst of appended events it holds exactly the 300 most
    recent entries (newest first), or all of them when there are fewer; the
    entries dropped are the oldest ones. *)
Theorem event_log_capacity (events : list (string * value)) (w : world)
    (log : list event_line) :
  eventsLog (dom w) = Some log ->
  events <> [] ->
  exists log',
    eventsLog (dom (appendEvents events w)) = Some log'
    /\ log' = take MAX_EVENT_LINES (rev (lines_of (clock w) events) ++ log)
    /\ (length log' <= 300)%nat.
Proof.
  intros Hlog Hne. eexists. split; [| split].
  - apply appendEvents_log; eassumption.
  - reflexivity.
  - rewrite length_take. change MAX_EVENT_LINES with 300%nat. lia.
Qed.

(** ** The credential *)

Lemma trim_blank (s : string) : blank s = true -> trim s = "".
Proof.
  unfold trim. induction s as [| c rest IH]; simpl; intros Hblank.
  - reflexivity.
  - apply andb_true_iff in Hblank as [Hc Hrest]. rewrite Hc. auto.
Qed.

Lemma authHeaders_no_token (s : state) (extra : option (gmap string string)) :
  token s = "" -> authHeaders s extra = default ∅ extra.
Proof. intros Htok. unfold authHeaders. rewrite Htok. reflexivity. Qed.

Lemma api_request_authorization (s : state) (path : string)
    (query : list (string * string)) (options : req_options) :
  token s = "" ->
  req_headers (api_request s path query options) !! "Authorization"
  = default ∅ (opt_headers options) !! "Authorization".
Proof.
  intros Htok. unfold api_request. rewrite authHeaders_no_token by exact Htok.
  simpl. case_match; simpl; [| reflexivity].
  rewrite lookup_insert_ne by discriminate. reflexivity.
Qed.

(** C10. Saving a credential whose trimmed value is empty acts on the
    credential as the clear button does: the token in memory becomes the
    empty string and the entry under the storage key is removed (no blank
    token is stored); calls made afterwards get no authorization header
    added, so a call that passes no headers of its own, as all calls of the
    script do, carries none. *)
Theorem save_blank_token_clears (w : world) :
  trim (value_of (tokenInput (dom w))) = "" ->
  let w' := saveTokenBtn_onclick w in
  token (st w') = ""
  /\ localStorage w' = delete TOKEN_STORAGE_KEY (localStorage w)
  /\ localStorage w' !! TOKEN_STORAGE_KEY = None
  /\ token (st w') = token (st (clearTokenBtn_onclick w))
  /\ localStorage w' = localStorage (clearTokenBtn_onclick w)
  /\ (forall extra, authHeaders (st w') extra = default ∅ extra)
  /\ (forall path query options,
        opt_headers options = None ->
        exists r k,
          run (api path query options) w' = (w', Blocked r k)
          /\ req_headers r !! "Authorization" = None).
Proof.
  intros Hblank w'.
  assert (w' = with_localStorage (delete TOKEN_STORAGE_KEY)
                 (with_st (set_token "") w)) as Hw'.
  { unfold w', saveTokenBtn_onclick. rewrite Hblank. reflexivity. }
  rewrite Hw'. split_and!.
  - reflexivity.
  - reflexivity.
  - apply lookup_delete_eq.
  - reflexivity.
  - reflexivity.
  - intros extra. apply authHeaders_no_token. reflexivity.
  - intros path query options Hnone. do 2 eexists. split.
    + apply run_api.
    + rewrite api_request_authorization by reflexivity.
      rewrite Hnone. apply lookup_empty.
Qed.

(** ** Preconditions of the thread actions *)

Lemma resolve_threadId_input (w : world) :
  value_of (threadIdInput (dom w)) <> "" ->
  resolve_threadId w = trim (value_of (threadIdInput (dom w))).
Proof.
  intros Hinput. unfold resolve_threadId, str_or at 1.
  rewrite eqb_empty_false by exact Hinput. reflexivity.
Qed.

Lemma resolve_threadId_stored (w : world) :
  value_of (threadIdInput (dom w)) = "" ->
  resolve_threadId w = trim (activeThreadId (st w)).
Proof.
  intros Hinput. unfold resolve_threadId. rewrite Hinput, str_or_empty_r.
  reflexivity.
Qed.

Lemma run_sendMessage_ready (w : world) :
  activeWorkspaceId (st w) <> "" ->
  resolve_threadId w <> "" ->
  trim (value_of (messageInput (dom w))) <> "" ->
  exists r k, run sendMessage w = (w, Blocked r k)
              /\ req_path r = "/api/threads/message".
Proof.
  intros Hws Hthread Htext. unfold sendMessage. simpl.
  rewrite !eqb_empty_false by assumption.
  do 2 eexists. split; reflexivity.
Qed.

(** C7. [sendMessage] with no active workspace, no resolvable thread id or a
    message that is empty once trimmed throws its precondition error at once:
    the run ends in that error, with the world unchanged and without having
    suspended on a request.  The same holds for [resumeThread] with no active
    workspace or no resolvable thread id.  The thread id is resolved from the
    input field when it holds a value, and from the stored active id only
    when the field is empty. *)
Theorem preconditions_before_network (w : world) :
  (activeWorkspaceId (st w) = "" ->
   run sendMessage w = (w, Failed (Error "Select a workspace first"))
   /\ run resumeThread w = (w, Failed (Error "Select a workspace first")))
  /\ (activeWorkspaceId (st w) <> "" -> resolve_threadId w = "" ->
      run sendMessage w = (w, Failed (Error "Select a thread first"))
      /\ run resumeThread w = (w, Failed (Error "Select a thread first")))
  /\ (activeWorkspaceId (st w) <> "" -> resolve_threadId w <> "" ->
      trim (value_of (messageInput (dom w))) = "" ->
      run sendMessage w = (w, Failed (Error "Enter a message first")))
  /\ (activeWorkspaceId (st w) = ""
      \/ resolve_threadId w = ""
      \/ trim (value_of (messageInput (dom w))) = "" ->
      issued (snd (run sendMessage w)) = None)
  /\ (activeWorkspaceId (st w) = "" \/ resolve_threadId w = "" ->
      issued (snd (run resumeThread w)) = None)
  /\ (value_of (threadIdInput (dom w)) <> "" ->
      resolve_threadId w = trim (value_of (threadIdInput (dom w))))
  /\ (value_of (threadIdInput (dom w)) = "" ->
      resolve_threadId w = trim (activeThreadId (st w))).
Proof.
  assert (activeWorkspaceId (st w) = "" ->
          run sendMessage w = (w, Failed (Error "Select a workspace first"))
          /\ run resumeThread w = (w, Failed (Error "Select a workspace first")))
    as Hno_ws.
  { intros Hws. unfold sendMessage, resumeThread. simpl. rewrite Hws. auto. }
  assert (activeWorkspaceId (st w) <> "" -> resolve_threadId w = "" ->
          run sendMessage w = (w, Failed (Error "Select a thread first"))
          /\ run resumeThread w = (w, Failed (Error "Select a thread first")))
    as Hno_thread.
  { intros Hws Hthread. unfold sendMessage, resumeThread. simpl.
    rewrite (eqb_empty_false _ Hws), Hthread. auto. }
  assert (activeWorkspaceId (st w) <> "" -> resolve_threadId w <> "" ->
          trim (value_of (messageInput (dom w))) = "" ->
          run sendMessage w = (w, Failed (Error "Enter a message first")))
    as Hno_text.
  { intros Hws Hthread Htext. unfold sendMessage. simpl.
    rewrite (eqb_empty_false _ Hws), (eqb_empty_false _ Hthread), Htext.
    reflexivity. }
  split_and!; try assumption.
  - intros Hpre.
    destruct (decide (activeWorkspaceId (st w) = "")) as [Hws | Hws].
    { destruct (Hno_ws Hws) as [-> _]. reflexivity. }
    destruct (decide (resolve_threadId w = "")) as [Hthread | Hthread].
    { destruct (Hno_thread Hws Hthread) as [-> _]. reflexivity. }
    destruct Hpre as [H | [H | H]]; try contradiction.
    rewrite (Hno_text Hws Hthread H). reflexivity.
  - intros Hpre.
    destruct (decide (activeWorkspaceId (st w) = "")) as [Hws | Hws].
    { destruct (Hno_ws Hws) as [_ ->]. reflexivity. }
    destruct Hpre as [H | H]; try contradiction.
    destruct (Hno_thread Hws H) as [_ ->]. reflexivity.
  - apply resolve_threadId_input.
  - apply resolve_threadId_stored.
Qed.

(** ** The request client *)

Lemma truthy_guarded_prop (payload : value) (k : string) :
  truthy (js_and payload (prop payload k)) = truthy (prop payload k).
Proof.
  unfold js_and. destruct (truthy payload) eqn:Htruthy; [reflexivity |].
  rewrite Htruthy. destruct payload; try discriminate; reflexivity.
Qed.

Lemma failure_message_cases (r : response) (payload : value) :
  failure_message r payload
  = if truthy (prop payload "error") then js_String (prop payload "error")
    else string_of_Z (status r) +:+ " " +:+ statusText r.
Proof. unfold failure_message. rewrite truthy_guarded_prop. reflexivity. Qed.

(** C6, as the code has it. A call through [api] suspends on one request.
    When the response is successful the call returns and does not throw: it
    returns null for an empty body, the decoded value for a body that
    [JSON.parse] accepts, and the body wrapped as [{raw: text}] for one it
    rejects.  When the response signals failure the call throws an error
    whose message is [String] of the decoded body's [error] field if that
    field is truthy, and the status followed by the status text otherwise
    (also when an [error] field is there but is empty, zero, false or
    null). *)
Theorem api_outcome (path : string) (query : list (string * string))
    (options : req_options) (w : world) :
  exists k,
    run (api path query options) w
    = (w, Blocked (api_request (st w) path query options) k)
    /\ forall (r : response) (w1 : world),
        let payload := decode (text r) in
        (text r = "" -> payload = VNull)
        /\ (text r <> "" -> JSON_parse (text r) = None ->
            payload = VObj [("raw", VStr (text r))])
        /\ (text r <> "" -> forall v, JSON_parse (text r) = Some v -> payload = v)
        /\ (ok r = true -> run (k (Responded r)) w1 = (w1, Finished payload))
        /\ (ok r = false -> truthy (prop payload "error") = true ->
            run (k (Responded r)) w1
            = (w1, Failed (Error (js_String (prop payload "error")))))
        /\ (ok r = false -> truthy (prop payload "error") = false ->
            run (k (Responded r)) w1
            = (w1, Failed (Error (string_of_Z (status r) +:+ " " +:+ statusText r)))).
Proof.
  exists api_receive. split; [apply run_api |].
  intros r w1 payload. split_and!.
  - intros Hempty. unfold payload, decode. rewrite Hempty. reflexivity.
  - intros Htext Hparse. unfold payload, decode.
    rewrite (eqb_empty_false _ Htext), Hparse. reflexivity.
  - intros Htext v Hparse. unfold payload, decode.
    rewrite (eqb_empty_false _ Htext), Hparse. reflexivity.
  - intros Hok. rewrite run_api_receive, Hok. reflexivity.
  - intros Hok Herr. rewrite run_api_receive, Hok, failure_message_cases.
    fold payload. rewrite Herr. reflexivity.
  - intros Hok Herr. rewrite run_api_receive, Hok, failure_message_cases.
    fold payload. rewrite Herr. reflexivity.
Qed.

(** ** Refreshing the thread list *)

Lemma existsb_thread_id (fetched : list value) (id : string) :
  existsb (fun thread => String.eqb (extractThreadId thread) id) fetched = true
  <-> In id (map extractThreadId fetched).
Proof.
  rewrite existsb_exists, in_map_iff. split.
  - intros [thread [Hin Heq]]. apply String.eqb_eq in Heq. eauto.
  - intros [thread [Heq Hin]]. exists thread. split; [exact Hin |].
    apply String.eqb_eq. exact Heq.
Qed.

Lemma store_threads_eq (payload : value) (w : world) :
  store_threads payload w
  = with_dom (set_threadIdInput
                (reconcile_thread (extractThreadList payload) (activeThreadId (st w))))
      (with_st (fun s =>
                  set_activeThreadId
                    (reconcile_thread (extractThreadList payload)
                       (activeThreadId (st w)))
                    (set_threads (extractThreadList payload) s)) w).
Proof.
  unfold store_threads, reconcile_thread, with_dom, with_st. simpl.
  destruct (String.eqb (activeThreadId (st w)) "") eqn:Hnone; simpl.
  - rewrite Hnone. simpl. destruct (0 <? _)%nat; reflexivity.
  - destruct (existsb _ (extractThreadList payload)); simpl.
    + rewrite Hnone. reflexivity.
    + destruct (0 <? _)%nat; reflexivity.
Qed.

Lemma reconcile_thread_member (fetched : list value) (previous : string) :
  reconcile_thread fetched previous <> "" ->
  In (reconcile_thread fetched previous) (map extractThreadId fetched).
Proof.
  unfold reconcile_thread.
  destruct (String.eqb_spec previous "") as [-> | Hprev]; simpl.
  - destruct fetched as [| first rest]; simpl; [congruence | auto].
  - destruct (existsb _ fetched) eqn:Hfound; simpl.
    + rewrite (eqb_empty_false _ Hprev). simpl. intros _.
      apply existsb_thread_id. exact Hfound.
    + destruct fetched as [| first rest]; simpl; [congruence | auto].
Qed.

Lemma reconcile_thread_kept (fetched : list value) (previous : string) :
  previous <> "" -> In previous (map extractThreadId fetched) ->
  reconcile_thread fetched previous = previous.
Proof.
  intros Hprev Hin. unfold reconcile_thread.
  apply existsb_thread_id in Hin. rewrite Hin, (eqb_empty_false _ Hprev).
  simpl. rewrite (eqb_empty_false _ Hprev). reflexivity.
Qed.


Lemma reconcile_thread_idem (fetched : list value) (previous : string) :
  reconcile_thread fetched (reconcile_thread fetched previous)
  = reconcile_thread fetched previous.
Proof.
  destruct (String.eqb_spec (reconcile_thread fetched previous) "") as [Hnone | Hsome].
  - rewrite Hnone. revert Hnone. unfold reconcile_thread.
    destruct (negb (String.eqb previous "") && _)%bool; simpl.
    + auto.
    + destruct (String.eqb_spec previous "") as [-> | Hprev]; simpl;
        [auto | congruence].
  - apply reconcile_thread_kept; [exact Hsome |].
    apply reconcile_thread_member. exact Hsome.
Qed.

Lemma store_threads_idem (payload : value) (w : world) :
  store_threads payload (store_threads payload w) = store_threads payload w.
Proof.
  rewrite !store_threads_eq.
  unfold with_dom, with_st, set_threadIdInput, set_activeThreadId, set_threads.
  simpl. rewrite reconcile_thread_idem.
  destruct (threadIdInput (dom w)); reflexivity.
Qed.

Lemma run_refreshThreads_idle (w : world) :
  activeWorkspaceId (st w) = "" ->
  run refreshThreads w = (with_st (set_threads []) w, Finished tt).
Proof. intros Hws. unfold refreshThreads. simpl. rewrite Hws. reflexivity. Qed.

(** With an active workspace [refreshThreads] suspends on the thread query
    for it; the continuation stores what arrives in the world of that
    moment. *)
Lemma run_refreshThreads (w : world) :
  activeWorkspaceId (st w) <> "" ->
  exists k,
    run refreshThreads w
    = (w, Blocked (api_request (st w) "/api/threads"
                     (threads_query (activeWorkspaceId (st w))) no_options) k)
    /\ forall (o : fetch_outcome) (w1 : world),
        run (k o) w1
        = match o with
          | Rejected e => (w1, Failed e)
          | Responded r =>
              if ok r then (store_threads (decode (text r)) w1, Finished tt)
              else (w1, Failed (Error (failure_message r (decode (text r)))))
          end.
Proof.
  intros Hws. eexists. split.
  - unfold refreshThreads. simpl. rewrite (eqb_empty_false _ Hws). reflexivity.
  - intros o w1. simpl.
    change (bind (api_receive o) ?f) with (api_receive o ≫= f).
    rewrite run_bind, run_api_receive.
    destruct o as [r | e]; [destruct (ok r) |]; reflexivity.
Qed.


Lemma store_threads_workspace (payload : value) (w : world) :
  activeWorkspaceId (st (store_threads payload w)) = activeWorkspaceId (st w).
Proof. rewrite store_threads_eq. reflexivity. Qed.


(** C8. Calling [refreshThreads] twice, each call answered by the same
    outcome and nothing happening in between, leaves after the second call
    the active thread id (indeed the whole world) that the first call left,
    and both calls end the same way. *)
Theorem refreshThreads_idempotent (w : world) (o : fetch_outcome) :
  let first := complete refreshThreads [o] w in
  let second := complete refreshThreads [o] (fst first) in
  activeThreadId (st (fst second)) = activeThreadId (st (fst first))
  /\ fst second = fst first
  /\ snd second = snd first
  /\ issued (snd first) = None.
Proof.
  unfold complete.
  destruct (String.eqb_spec (activeWorkspaceId (st w)) "") as [Hidle | Hws].
  - rewrite (run_refreshThreads_idle w Hidle). cbn [feed fst snd].
    rewrite run_refreshThreads_idle by exact Hidle. cbn [feed fst snd]. auto.
  - destruct (run_refreshThreads w Hws) as [k [Hrun Hk]].
    rewrite Hrun. cbn [feed fst snd]. rewrite Hk.
    destruct o as [r | e]; [destruct (ok r) eqn:Hok |]; cbn [feed fst snd].
    + assert (activeWorkspaceId (st (store_threads (decode (text r)) w)) <> "")
        as Hws' by (rewrite store_threads_workspace; exact Hws).
      destruct (run_refreshThreads _ Hws') as [k' [Hrun' Hk']].
      rewrite Hrun'. cbn [feed fst snd]. rewrite Hk', Hok. cbn [feed fst snd].
      rewrite store_threads_idem. auto.
    + rewrite Hrun. cbn [feed fst snd]. rewrite Hk, Hok. auto.
    + rewrite Hrun. cbn [feed fst snd]. rewrite Hk. auto.
Qed.

(** ** Switching the workspace *)


Lemma failed_outcome (o : fetch_outcome) (e : js_error) (w : world) :
  outcome_error o = Some e ->
  match o with
  | Rejected e' => (w, @Failed unit e')
  | Responded r =>
      if ok r then (store_threads (decode (text r)) w, Finished tt)
      else (w, Failed (Error (failure_message r (decode (text r)))))
  end = (w, Failed e).
Proof.
  intros Herr. destruct o as [r | e']; simpl in Herr.
  - destruct (ok r); [discriminate |]. injection Herr as <-. reflexivity.
  - injection Herr as <-. reflexivity.
Qed.


(** ** Refreshing the workspaces *)

Lemma run_renderWorkspaces (w : world) :
  workspaceSelect (dom w) = true ->
  existsb nullish (workspaces (st w)) = false ->
  run renderWorkspaces w
  = (with_st (set_activeWorkspaceId
                (reconcile_workspace (workspaces (st w)) (activeWorkspaceId (st w)))) w,
     Finished tt).
Proof.
  intros Hselect Hnonnull. unfold renderWorkspaces, reconcile_workspace. simpl.
  rewrite Hselect, Hnonnull. simpl.
  destruct (length (workspaces (st w)) =? 0)%nat; reflexivity.
Qed.

Lemma existsb_workspace_id (stored : list value) (id : string) :
  existsb (fun w0 => String.eqb (js_String (prop w0 "id")) id) stored = true
  <-> In id (map (fun w0 => js_String (prop w0 "id")) stored).
Proof.
  rewrite existsb_exists, in_map_iff. split.
  - intros [w0 [Hin Heq]]. apply String.eqb_eq in Heq. eauto.
  - intros [w0 [Heq Hin]]. exists w0. split; [exact Hin |].
    apply String.eqb_eq. exact Heq.
Qed.

Lemma reconcile_workspace_kept (stored : list value) (previous : string) :
  In previous (map (fun w0 => js_String (prop w0 "id")) stored) ->
  reconcile_workspace stored previous = previous.
Proof.
  intros Hin. unfold reconcile_workspace.
  destruct stored as [| first rest]; [destruct Hin |].
  apply existsb_workspace_id in Hin. rewrite Hin. reflexivity.
Qed.

Lemma reconcile_workspace_reset (stored : list value) (previous : string) :
  ~ In previous (map (fun w0 => js_String (prop w0 "id")) stored) ->
  reconcile_workspace stored previous
  = match stored with
    | [] => ""
    | first :: _ => js_String (js_or (prop first "id") (VStr ""))
    end.
Proof.
  intros Hout. unfold reconcile_workspace.
  destruct stored as [| first rest]; [reflexivity |].
  assert (existsb (fun w0 => String.eqb (js_String (prop w0 "id")) previous)
            (first :: rest) = false) as ->.
  { apply not_true_is_false. rewrite existsb_workspace_id. exact Hout. }
  reflexivity.
Qed.

Lemma run_renderWorkspaces_null (w : world) :
  workspaceSelect (dom w) = true ->
  existsb nullish (workspaces (st w)) = true ->
  run renderWorkspaces w = (w, Failed null_read).
Proof.
  intros Hselect Hnull. unfold renderWorkspaces. simpl.
  rewrite Hselect, Hnull. reflexivity.
Qed.

Lemma run_renderWorkspaces_absent (w : world) :
  workspaceSelect (dom w) = false ->
  run renderWorkspaces w = (w, Finished tt).
Proof.
  intros Hselect. unfold renderWorkspaces. simpl. rewrite Hselect. reflexivity.
Qed.

Lemma with_st_activeWorkspaceId_same (w : world) :
  with_st (set_activeWorkspaceId (activeWorkspaceId (st w))) w = w.
Proof. destruct w as [[] ? ? ? ? ?]. reflexivity. Qed.

(** C2, as the code has it. [refreshWorkspaces] fetches the workspace
    collection and, for every collection a successful response delivers,
    stores it in place of the old one.  With the workspace select on the page
    and no null entry in the collection, the active workspace id is then the
    id held before if [String(w.id)] of an entry equals it, else
    [String(first.id)] if the first entry's id is truthy, else empty: empty
    for the empty collection, and also when the first entry's id is missing,
    empty, zero, false or null.  A null entry makes [renderWorkspaces] throw
    once the collection is stored: the active workspace id and the threads
    stay as they were and nothing more is fetched.  Without the select the
    active workspace id stays the one held before.  Where nothing is thrown:
    if the active workspace id is then empty the thread collection is
    cleared and nothing more is fetched; otherwise the thread query for that
    id is issued, and what it delivers is stored as [refreshThreads] does,
    while its failure is thrown on. *)
Theorem refreshWorkspaces_reconciles (w : world) :
  exists k,
    run refreshWorkspaces w
    = (w, Blocked (api_request (st w) "/api/workspaces" [] no_options) k)
    /\ forall (r : response) (w1 : world),
        ok r = true ->
        let fetched := array_or_empty (prop (decode (text r)) "workspaces") in
        let previous := activeWorkspaceId (st w1) in
        let ids := map (fun w0 => js_String (prop w0 "id")) fetched in
        let stored := with_st (set_workspaces fetched) w1 in
        (workspaceSelect (dom w1) = true ->
         existsb nullish fetched = true ->
         run (k (Responded r)) w1 = (stored, Failed null_read))
        /\ exists next,
            (workspaceSelect (dom w1) = false -> next = previous)
            /\ (workspaceSelect (dom w1) = true -> In previous ids ->
                next = previous)
            /\ (workspaceSelect (dom w1) = true -> ~ In previous ids ->
                next = match fetched with
                       | [] => ""
                       | first :: _ =>
                           if truthy (prop first "id")
                           then js_String (prop first "id") else ""
                       end)
            /\ (workspaceSelect (dom w1) = false
                \/ existsb nullish fetched = false ->
                let w2 := with_st (set_activeWorkspaceId next) stored in
                workspaces (st w2) = fetched
                /\ activeWorkspaceId (st w2) = next
                /\ (next = "" ->
                    run (k (Responded r)) w1
                    = (with_st (set_threads []) w2, Finished tt))
                /\ (next <> "" ->
                    exists k',
                      run (k (Responded r)) w1
                      = (w2, Blocked (api_request (st w2) "/api/threads"
                                        [("workspaceId", next); ("limit", "40");
                                         ("sortKey", "updated_at")] no_options) k')
                      /\ forall (o : fetch_outcome) (w3 : world),
                          (forall r', o = Responded r' -> ok r' = true ->
                           run (k' o) w3
                           = (store_threads (decode (text r')) w3, Finished tt))
                          /\ (forall e, outcome_error o = Some e ->
                              run (k' o) w3 = (w3, Failed e)))).
Proof.
  eexists. split.
  - unfold refreshWorkspaces. rewrite run_bind, run_api. reflexivity.
  - intros r w1 Hok fetched previous ids stored. cbv beta.
    rewrite run_bind, run_api_receive, Hok.
    rewrite run_bind, run_modify, run_bind. fold fetched. fold stored.
    split.
    + intros Hselect Hnull.
      rewrite run_renderWorkspaces_null; [reflexivity | exact Hselect | exact Hnull].
    + exists (if workspaceSelect (dom w1) then reconcile_workspace fetched previous
              else previous).
      split_and!.
      * intros ->. reflexivity.
      * intros -> Hin. apply reconcile_workspace_kept. exact Hin.
      * intros -> Hout. rewrite reconcile_workspace_reset by exact Hout.
        destruct fetched as [| first rest]; [reflexivity |].
        unfold js_or. destruct (truthy (prop first "id")); reflexivity.
      * intros Hcase.
        set (next := if workspaceSelect (dom w1) then _ else _).
        intros w2.
        assert (run renderWorkspaces stored = (w2, Finished tt)) as Hrender.
        { destruct (workspaceSelect (dom w1)) eqn:Hselect.
          - destruct Hcase as [Habsent | Hnonnull]; [discriminate |].
            apply run_renderWorkspaces; assumption.
          - rewrite run_renderWorkspaces_absent by exact Hselect.
            change w2
              with (with_st (set_activeWorkspaceId (activeWorkspaceId (st stored)))
                      stored).
            rewrite with_st_activeWorkspaceId_same. reflexivity. }
        rewrite Hrender. split_and!.
        -- reflexivity.
        -- reflexivity.
        -- intros Hnone. simpl. fold fetched previous next. rewrite Hnone.
           reflexivity.
        -- intros Hsome.
           assert (activeWorkspaceId (st w2) <> "") as Hws by exact Hsome.
           destruct (run_refreshThreads w2 Hws) as [k' [Hrun' Hk']].
           exists k'. split.
           ++ simpl. fold fetched previous next.
              rewrite (eqb_empty_false _ Hsome). cbn [negb].
              exact Hrun'.
           ++ intros o w3. split.
              ** intros r' -> Hok'. rewrite Hk', Hok'. reflexivity.
              ** intros e Herr. rewrite Hk'. apply failed_outcome. exact Herr.
Qed.

(** ** The refresh scheduler *)

Lemma schedule_dropped (workspaceId : string) (w : world) :
  workspaceId = ""
  \/ workspaceId <> activeWorkspaceId (st w)
  \/ refreshThreadsTimer (st w) <> None ->
  scheduleRefreshThreads workspaceId w = w.
Proof.
  intros Hdrop. unfold scheduleRefreshThreads.
  destruct (String.eqb_spec workspaceId "") as [| Hid]; [reflexivity |].
  destruct (String.eqb_spec workspaceId (activeWorkspaceId (st w))) as [| Hother];
    [| reflexivity].
  simpl. destruct (refreshThreadsTimer (st w)) as [pending |] eqn:Htimer.
  - reflexivity.
  - destruct Hdrop as [H | [H | H]]; congruence.
Qed.

Lemma schedule_accepted (workspaceId : string) (w : world) :
  workspaceId <> "" ->
  workspaceId = activeWorkspaceId (st w) ->
  refreshThreadsTimer (st w) = None ->
  scheduleRefreshThreads workspaceId w
  = mkWorld (set_refreshThreadsTimer (Some (next_timer w)) (st w)) (dom w)
      (localStorage w) (clock w)
      (timers w ++ [mkTimer (next_timer w) (clock w + REFRESH_DELAY)])
      (Pos.succ (next_timer w)).
Proof.
  intros Hid Hactive Htimer. unfold scheduleRefreshThreads.
  rewrite (eqb_empty_false _ Hid), <- Hactive, String.eqb_refl, Htimer.
  reflexivity.
Qed.





(** ** Push events *)

Lemma schedule_st (workspaceId : string) (w : world) :
  activeThreadId (st (scheduleRefreshThreads workspaceId w)) = activeThreadId (st w)
  /\ activeWorkspaceId (st (scheduleRefreshThreads workspaceId w))
     = activeWorkspaceId (st w)
  /\ dom (scheduleRefreshThreads workspaceId w) = dom w.
Proof.
  unfold scheduleRefreshThreads. repeat case_match; auto.
Qed.

Lemma schedule_leaves_pending (workspaceId : string) (w : world) :
  workspaceId <> "" ->
  workspaceId = activeWorkspaceId (st w) ->
  refreshThreadsTimer (st (scheduleRefreshThreads workspaceId w)) <> None.
Proof.
  intros Hid Hactive.
  destruct (refreshThreadsTimer (st w)) as [pending |] eqn:Htimer.
  - rewrite schedule_dropped by (rewrite Htimer; auto). rewrite Htimer. discriminate.
  - rewrite schedule_accepted by assumption. discriminate.
Qed.

Lemma ws_onmessage_app_server_event (data : string) (payload : value) (w : world) :
  JSON_parse (str_or data "{}") = Some payload ->
  gateway_envelope payload = false ->
  prop payload "method" = VStr "app-server-event" ->
  ws_onmessage data w = on_app_server_event payload w.
Proof.
  intros Hparse Hgateway Hmethod. unfold ws_onmessage. rewrite Hparse.
  unfold gateway_envelope in Hgateway.
  apply orb_false_iff in Hgateway as [Hgateway Hdisconnected].
  apply orb_false_iff in Hgateway as [Hready Herror].
  rewrite Hready, Herror, Hdisconnected, Hmethod. reflexivity.
Qed.

(** C5. For an app-server-event envelope, with [workspaceId] and [threadId]
    the ids the handler extracts from it: if the event carries a thread id
    and its workspace id is the active one, the thread id becomes the active
    one only if none was active (a non-empty active thread id stays), and
    the refresh scheduler is called for that workspace id.  With a non-empty
    id a refresh is pending afterwards; the new timeout is due 600 units
    later if none was pending before.  With the empty id, which is the
    active one when no workspace is active, the scheduler returns at once:
    the thread id is adopted all the same and nothing is scheduled.  If the
    event's workspace id differs from the active one (or the event carries
    no thread id), no thread id is adopted and nothing is scheduled. *)
Theorem app_server_event_routing (data : string) (payload : value) (w : world) :
  JSON_parse (str_or data "{}") = Some payload ->
  gateway_envelope payload = false ->
  prop payload "method" = VStr "app-server-event" ->
  let params := js_or (prop payload "params") (VObj []) in
  let workspaceId := event_workspaceId params in
  let threadId := event_threadId (js_or (prop params "message") (VObj [])) in
  let w' := ws_onmessage data w in
  (threadId <> "" -> workspaceId = activeWorkspaceId (st w) ->
   activeThreadId (st w')
   = (if String.eqb (activeThreadId (st w)) "" then threadId
      else activeThreadId (st w))
   /\ (exists w1,
         w' = scheduleRefreshThreads workspaceId w1
         /\ activeWorkspaceId (st w1) = activeWorkspaceId (st w)
         /\ refreshThreadsTimer (st w1) = refreshThreadsTimer (st w)
         /\ timers w1 = timers w
         /\ clock w1 = clock w
         /\ next_timer w1 = next_timer w)
   /\ (workspaceId <> "" -> refreshThreadsTimer (st w') <> None)
   /\ (workspaceId <> "" -> refreshThreadsTimer (st w) = None ->
       timers w' = timers w ++ [mkTimer (next_timer w) (clock w + 600)])
   /\ (workspaceId = "" ->
       refreshThreadsTimer (st w') = refreshThreadsTimer (st w)
       /\ timers w' = timers w))
  /\ (threadId = "" \/ workspaceId <> activeWorkspaceId (st w) ->
      activeThreadId (st w') = activeThreadId (st w)
      /\ threadIdInput (dom w') = threadIdInput (dom w)
      /\ refreshThreadsTimer (st w') = refreshThreadsTimer (st w)
      /\ timers w' = timers w).
Proof.
  intros Hparse Hgateway Hmethod params workspaceId threadId w'.
  assert (w' = on_app_server_event payload w) as Hw'
    by (apply ws_onmessage_app_server_event; assumption).
  unfold on_app_server_event in Hw'.
  fold params in Hw'. fold workspaceId in Hw'. fold threadId in Hw'.
  set (logged := appendEvent _ _ w) in Hw'.
  assert (st logged = st w) as Hst by apply appendEvent_st.
  destruct (appendEvent_timers
              ("app:" +:+ str_or (js_String (js_or (prop (js_or (prop params "message")
                                                            (VObj [])) "method")
                                               (VStr ""))) "unknown")
              (VObj [("workspaceId", VStr workspaceId);
                     ("message", js_or (prop (js_or (prop params "message") (VObj []))
                                          "params") (VObj []))]) w)
    as (Htimers & Hclock & Hnext & _).
  fold logged in Htimers, Hclock, Hnext.
  rewrite Hst in Hw'. split.
  - intros Hthread Hactive.
    rewrite (eqb_empty_false _ Hthread), Hactive, String.eqb_refl in Hw'.
    simpl in Hw'. rewrite <- Hactive in Hw'.
    set (adopted := if String.eqb (activeThreadId (st w)) "" then _ else logged)
      in Hw'.
    assert (activeThreadId (st adopted)
            = (if String.eqb (activeThreadId (st w)) "" then threadId
               else activeThreadId (st w))) as Hadopted.
    { unfold adopted. destruct (String.eqb (activeThreadId (st w)) "");
        [reflexivity | rewrite Hst; reflexivity]. }
    assert (activeWorkspaceId (st adopted) = activeWorkspaceId (st w)
            /\ refreshThreadsTimer (st adopted) = refreshThreadsTimer (st w)
            /\ timers adopted = timers w
            /\ clock adopted = clock w
            /\ next_timer adopted = next_timer w) as (Hws & Hflag & Htm & Hclk & Hnxt).
    { unfold adopted. destruct (String.eqb (activeThreadId (st w)) ""); simpl;
        rewrite ?Hst; auto. }
    split_and!.
    + rewrite Hw'. destruct (schedule_st workspaceId adopted) as [-> _].
      exact Hadopted.
    + exists adopted. split_and!; assumption.
    + intros Hid. rewrite Hw'. apply schedule_leaves_pending; [exact Hid |].
      rewrite Hws. exact Hactive.
    + intros Hid Hnone. rewrite Hw'.
      rewrite schedule_accepted; [| exact Hid | congruence | congruence].
      simpl. rewrite Htm, Hclk, Hnxt. reflexivity.
    + intros Hnoid. rewrite Hw'.
      rewrite schedule_dropped by (left; exact Hnoid).
      split; assumption.
  - intros Hskip.
    assert ((negb (String.eqb threadId "")
             && String.eqb workspaceId (activeWorkspaceId (st w)))%bool = false)
      as Hne.
    { destruct Hskip as [-> | Hother]; [reflexivity |].
      apply String.eqb_neq in Hother. rewrite Hother. apply andb_false_r. }
    rewrite Hne in Hw'. rewrite Hw'.
    rewrite Hst. split_and!; try reflexivity.
    + apply appendEvent_threadIdInput.
    + exact Htimers.
Qed.

(** ** Escaping *)

Lemma append_assoc (a b c : string) : (a +:+ b) +:+ c = a +:+ (b +:+ c).
Proof.
  induction a as [| x a IH]; [reflexivity |].
  change (String x ((a +:+ b) +:+ c) = String x (a +:+ (b +:+ c))).
  rewrite IH. reflexivity.
Qed.

Lemma replaceAll_app (c : ascii) (by_ a b : string) :
  replaceAll c by_ (a +:+ b) = replaceAll c by_ a +:+ replaceAll c by_ b.
Proof.
  induction a as [| x a IH]; [reflexivity |].
  change (String x a +:+ b) with (String x (a +:+ b)).
  cbn [replaceAll]. rewrite IH. destruct (Ascii.eqb x c).
  - symmetry. apply append_assoc.
  - reflexivity.
Qed.

(** The five replacements in a row escape every character once: the
    ampersands of the entities they write are not escaped again. *)
Lemma escapeHtml_one_pass (text : string) : escapeHtml text = escape_each text.
Proof.
  induction text as [| c rest IH]; [reflexivity |].
  unfold escapeHtml in *. cbn [replaceAll escape_each]. unfold escape_char.
  destruct (Ascii.eqb c "&").
  { rewrite !replaceAll_app. cbn. rewrite IH. reflexivity. }
  cbn [replaceAll]. destruct (Ascii.eqb c "<").
  { rewrite !replaceAll_app. cbn. rewrite IH. reflexivity. }
  cbn [replaceAll]. destruct (Ascii.eqb c ">").
  { rewrite !replaceAll_app. cbn. rewrite IH. reflexivity. }
  cbn [replaceAll]. destruct (Ascii.eqb c double_quote).
  { rewrite !replaceAll_app. cbn. rewrite IH. reflexivity. }
  cbn [replaceAll]. destruct (Ascii.eqb c "'").
  { cbn. rewrite IH. reflexivity. }
  cbn. rewrite IH. reflexivity.
Qed.

Lemma every_app (p : ascii -> bool) (a b : string) :
  every p (a +:+ b) = (every p a && every p b)%bool.
Proof.
  induction a as [| x a IH]; [reflexivity |].
  change (String x a +:+ b) with (String x (a +:+ b)).
  cbn [every]. rewrite IH. apply andb_assoc.
Qed.

(** X1. Whatever the text, what [escapeHtml] returns holds none of the
    characters [<], [>], the double quote and the single quote. *)
Theorem escapeHtml_no_markup (text : string) :
  every (fun c => negb (markup_char c)) (escapeHtml text) = true.
Proof.
  rewrite escapeHtml_one_pass.
  induction text as [| c rest IH]; [reflexivity |].
  cbn [escape_each]. rewrite every_app, IH, andb_true_r.
  unfold escape_char, markup_char.
  destruct (Ascii.eqb c "&"); [reflexivity |].
  destruct (Ascii.eqb c "<") eqn:Hlt; [reflexivity |].
  destruct (Ascii.eqb c ">") eqn:Hgt; [reflexivity |].
  destruct (Ascii.eqb c double_quote) eqn:Hdq; [reflexivity |].
  destruct (Ascii.eqb c "'") eqn:Hsq; [reflexivity |].
  simpl. rewrite Hlt, Hgt, Hdq, Hsq. reflexivity.
Qed.

Lemma escape_each_inj (a b : string) : escape_each a = escape_each b -> a = b.
Proof.
  revert b. induction a as [| c a IH]; intros [| d b] Heq.
  - reflexivity.
  - exfalso. simpl in Heq. unfold escape_char in Heq.
    repeat match type of Heq with
           | context [Ascii.eqb ?x ?y] => destruct (Ascii.eqb x y)
           end; discriminate.
  - exfalso. simpl in Heq. unfold escape_char in Heq.
    repeat match type of Heq with
           | context [Ascii.eqb ?x ?y] => destruct (Ascii.eqb x y)
           end; discriminate.
  - simpl in Heq. unfold escape_char in Heq.
    repeat match type of Heq with
           | context [Ascii.eqb ?x ?y] => destruct (Ascii.eqb_spec x y)
           end;
      simpl in Heq; try discriminate; injection Heq; intros; subst;
      try congruence; f_equal; auto.
Qed.

(** X2. [escapeHtml] loses nothing: two different texts are escaped to two
    different texts (so a text that already holds an entity is not taken for
    the character the entity stands for). *)
Theorem escapeHtml_injective (a b : string) :
  a <> b -> escapeHtml a <> escapeHtml b.
Proof.
  intros Hne Heq. apply Hne. apply escape_each_inj.
  rewrite <- !escapeHtml_one_pass. exact Heq.
Qed.

(** ** The thread list on the page *)

Lemma length_append (a b : string) :
  String.length (a +:+ b) = (String.length a + String.length b)%nat.
Proof.
  induction a as [| x a IH]; [reflexivity |].
  change (String x a +:+ b) with (String x (a +:+ b)).
  cbn [String.length]. rewrite IH. reflexivity.
Qed.

Lemma length_substring (n : nat) (s : string) :
  String.length (substring 0 n s) = Nat.min n (String.length s).
Proof.
  revert s. induction n as [| n IH]; intros [| c s]; simpl; auto.
Qed.

(** X3. The title of a thread is never empty; when the thread has a preview
    that is not blank the title is that preview, cut after 80 characters and
    marked with three dots if it is longer, so it has at most 83 characters;
    otherwise the title is "Thread" with the position of the thread, counted
    from one. *)
Theorem threadDisplayName_bounded (thread : value) (index : nat) :
  let preview := trim (js_String (js_or (prop thread "preview") (VStr ""))) in
  threadDisplayName thread index <> ""
  /\ (preview <> "" ->
      (String.length (threadDisplayName thread index) <= 83)%nat
      /\ ((String.length preview <= 80)%nat ->
          threadDisplayName thread index = preview)
      /\ ((80 < String.length preview)%nat ->
          threadDisplayName thread index = substring 0 80 preview +:+ "..."))
  /\ (preview = "" ->
      threadDisplayName thread index
      = "Thread " +:+ string_of_Z (Z.of_nat index + 1)).
Proof.
  intros preview. unfold threadDisplayName. fold preview.
  destruct (String.eqb_spec preview "") as [Hblank | Hpreview]; cbn [negb].
  - split_and!.
    + discriminate.
    + intros Hne. contradiction.
    + reflexivity.
  - destruct (Nat.ltb_spec 80 (String.length preview)) as [Hlong | Hshort].
    + split_and!.
      * intros Hempty.
        assert (String.length (substring 0 80 preview +:+ "...") = 0%nat) as Hlen
          by (rewrite Hempty; reflexivity).
        rewrite length_append in Hlen. simpl in Hlen. lia.
      * intros _. split_and!.
        -- rewrite length_append, length_substring.
           change (String.length "...") with 3%nat. lia.
        -- intros Hfit. lia.
        -- reflexivity.
      * intros Hblank. contradiction.
    + split_and!.
      * exact Hpreview.
      * intros _. split_and!; [lia | reflexivity | intros Hlong; lia].
      * intros Hblank. contradiction.
Qed.

Lemma reconcile_thread_listed (fetched : list value) (previous : string) :
  fetched <> [] ->
  In (reconcile_thread fetched previous) (map extractThreadId fetched).
Proof.
  intros Hsome.
  destruct (String.eqb_spec (reconcile_thread fetched previous) "")
    as [Hnone | Hactive].
  - destruct fetched as [| first rest]; [congruence |].
    left. revert Hnone. unfold reconcile_thread.
    destruct (negb (String.eqb previous "") && _)%bool; simpl.
    + auto.
    + destruct (String.eqb_spec previous "") as [-> | Hprev]; simpl;
        [auto | congruence].
  - apply reconcile_thread_member. exact Hactive.
Qed.

Lemma thread_items_active (s : state) (item : thread_item) :
  item ∈ thread_items s ->
  item_active item = String.eqb (item_threadId item) (activeThreadId s).
Proof.
  intros Hin. unfold thread_items in Hin.
  apply list_elem_of_lookup in Hin as [i Hi].
  rewrite list_lookup_imap in Hi.
  destruct (threads s !! i) as [thread |]; [| discriminate].
  injection Hi as <-. reflexivity.
Qed.

(** X4. After a thread refresh that delivered at least one thread, the list
    [renderThreads] builds from the state has one entry per thread, marks
    exactly the entries whose thread id is the active one, and marks at
    least one entry. *)
Theorem refreshed_list_shows_selection (w : world) :
  activeWorkspaceId (st w) <> "" ->
  exists k,
    run refreshThreads w
    = (w, Blocked (api_request (st w) "/api/threads"
                     (threads_query (activeWorkspaceId (st w))) no_options) k)
    /\ forall (r : response) (w1 : world),
        ok r = true ->
        extractThreadList (decode (text r)) <> [] ->
        exists w2,
          run (k (Responded r)) w1 = (w2, Finished tt)
          /\ length (thread_items (st w2))
             = length (extractThreadList (decode (text r)))
          /\ Forall (fun item =>
                       item_active item = true
                       <-> item_threadId item = activeThreadId (st w2))
               (thread_items (st w2))
          /\ Exists (fun item => item_active item = true) (thread_items (st w2)).
Proof.
  intros Hws. destruct (run_refreshThreads w Hws) as [k [Hrun Hk]].
  exists k. split; [exact Hrun |].
  intros r w1 Hok Hsome.
  exists (store_threads (decode (text r)) w1). split.
  { rewrite Hk, Hok. reflexivity. }
  set (w2 := store_threads (decode (text r)) w1).
  assert (threads (st w2) = extractThreadList (decode (text r))
          /\ activeThreadId (st w2)
             = reconcile_thread (extractThreadList (decode (text r)))
                 (activeThreadId (st w1))) as [Hthreads Hactive].
  { unfold w2. rewrite store_threads_eq. split; reflexivity. }
  split_and!.
  - unfold thread_items. rewrite length_imap, Hthreads. reflexivity.
  - apply Forall_forall. intros item Hin.
    rewrite (thread_items_active _ _ Hin). apply String.eqb_eq.
  - pose proof (reconcile_thread_listed _ (activeThreadId (st w1)) Hsome) as Hlisted.
    rewrite <- Hactive, <- Hthreads in Hlisted.
    apply in_map_iff in Hlisted as [thread [Hid Hin]].
    apply list_elem_of_In, list_elem_of_lookup in Hin as [i Hi].
    apply Exists_exists.
    eexists. split.
    + apply list_elem_of_lookup. exists i. unfold thread_items.
      rewrite list_lookup_imap, Hi. reflexivity.
    + simpl. rewrite Hid. apply String.eqb_refl.
Qed.

(** ** Requests *)

Lemma header_missing_authHeaders (s : state) (extra : option (gmap string string)) :
  header_missing (authHeaders s extra) "Content-Type"
  = header_missing (default ∅ extra) "Content-Type".
Proof.
  unfold header_missing, authHeaders.
  destruct (negb (String.eqb (token s) "")); [| reflexivity].
  rewrite lookup_insert_ne by discriminate. reflexivity.
Qed.

(** X5. Every call through [api] suspends on one request, for the path,
    query, method and body it was given.  With a token the request carries
    [Authorization: Bearer token], whatever the caller passed under that
    name; without a token the caller's value, if any, stays.  A call with a
    body gets [Content-Type: application/json] unless the caller passed a
    non-empty content type, which is kept; and every other header of the
    caller is passed on unchanged. *)
Theorem api_request_headers (path : string) (query : list (string * string))
    (options : req_options) (w : world) :
  exists r k,
    run (api path query options) w = (w, Blocked r k)
    /\ req_path r = path
    /\ req_query r = query
    /\ req_method r = opt_method options
    /\ req_body r = opt_body options
    /\ let given := default ∅ (opt_headers options) in
       (token (st w) <> "" ->
        req_headers r !! "Authorization" = Some ("Bearer " +:+ token (st w)))
       /\ (token (st w) = "" ->
           req_headers r !! "Authorization" = given !! "Authorization")
       /\ (is_Some (opt_body options) ->
           header_missing given "Content-Type" = true ->
           req_headers r !! "Content-Type" = Some "application/json")
       /\ (opt_body options = None
           \/ header_missing given "Content-Type" = false ->
           req_headers r !! "Content-Type" = given !! "Content-Type")
       /\ (forall name,
             name <> "Authorization" -> name <> "Content-Type" ->
             req_headers r !! name = given !! name).
Proof.
  do 2 eexists. split; [apply run_api |].
  split_and!; try reflexivity. cbv zeta.
  unfold api_request. cbn [req_headers].
  rewrite header_missing_authHeaders.
  set (given := default ∅ (opt_headers options)).
  set (typed := (bool_decide (is_Some (opt_body options))
                 && header_missing given "Content-Type")%bool).
  assert (forall name, name <> "Authorization" ->
            authHeaders (st w) (opt_headers options) !! name = given !! name)
    as Hother.
  { intros name Hname. unfold authHeaders. fold given.
    destruct (negb (String.eqb (token (st w)) "")); [| reflexivity].
    apply lookup_insert_ne. congruence. }
  assert (forall name, name <> "Content-Type" ->
            (if typed
             then <["Content-Type" := "application/json"]>
                    (authHeaders (st w) (opt_headers options))
             else authHeaders (st w) (opt_headers options)) !! name
            = authHeaders (st w) (opt_headers options) !! name) as Hkeep.
  { intros name Hname. destruct typed; [| reflexivity].
    apply lookup_insert_ne. congruence. }
  split_and!.
  - intros Htoken. rewrite Hkeep by discriminate. unfold authHeaders.
    rewrite (eqb_empty_false _ Htoken). apply lookup_insert_eq.
  - intros Htoken. rewrite Hkeep by discriminate.
    rewrite authHeaders_no_token by exact Htoken. reflexivity.
  - intros Hbody Hmissing. unfold typed.
    rewrite (bool_decide_eq_true_2 _ Hbody), Hmissing. apply lookup_insert_eq.
  - intros Hplain.
    assert (typed = false) as ->.
    { unfold typed. destruct Hplain as [-> | ->];
        [reflexivity | apply andb_false_r]. }
    apply Hother. discriminate.
  - intros name Hauth Htype. rewrite Hkeep by exact Htype.
    apply Hother. exact Hauth.
Qed.

Lemma run_bootstrap (w : world) :
  let saved := default "" (localStorage w !! TOKEN_STORAGE_KEY) in
  let w1 := with_dom (set_tokenInput saved) (with_st (set_token saved) w) in
  exists k,
    run bootstrap w
    = (w1, Blocked (api_request (st w1) "/api/drawings" [] no_options) k).
Proof.
  intros saved w1. unfold bootstrap.
  rewrite run_bind, run_modify, run_bind, run_modify, run_bind.
  unfold refreshDrawings. rewrite run_try_catch, run_bind, run_api.
  eexists. reflexivity.
Qed.

(** X6. The credential survives a reload.  When the page is started again
    on the storage that the save button left, [bootstrap] restores the
    saved token (the trimmed input) into the state and the token box, and
    its first request, the drawings overview, carries it as bearer
    credential; after saving blanks, or after the clear button, the restored
    token is empty and that request carries no authorization header. *)
Theorem saved_token_survives_reload (w fresh : world) :
  let saved := trim (value_of (tokenInput (dom w))) in
  (localStorage fresh = localStorage (saveTokenBtn_onclick w) ->
   exists w1 r k,
     run bootstrap fresh = (w1, Blocked r k)
     /\ token (st w1) = saved
     /\ tokenInput (dom w1) = assign saved (tokenInput (dom fresh))
     /\ req_path r = "/api/drawings"
     /\ req_headers r !! "Authorization"
        = (if String.eqb saved "" then None else Some ("Bearer " +:+ saved)))
  /\ (localStorage fresh = localStorage (clearTokenBtn_onclick w) ->
      exists w1 r k,
        run bootstrap fresh = (w1, Blocked r k)
        /\ token (st w1) = ""
        /\ req_path r = "/api/drawings"
        /\ req_headers r !! "Authorization" = None).
Proof.
  intros saved.
  assert (forall tok,
            default "" (localStorage fresh !! TOKEN_STORAGE_KEY) = tok ->
            exists w1 r k,
              run bootstrap fresh = (w1, Blocked r k)
              /\ token (st w1) = tok
              /\ tokenInput (dom w1) = assign tok (tokenInput (dom fresh))
              /\ req_path r = "/api/drawings"
              /\ req_headers r !! "Authorization"
                 = (if String.eqb tok "" then None else Some ("Bearer " +:+ tok)))
    as Hboot.
  { intros tok Htok. destruct (run_bootstrap fresh) as [k Hrun].
    rewrite Htok in Hrun. do 3 eexists. split; [exact Hrun |].
    split_and!; try reflexivity.
    unfold api_request, authHeaders. simpl.
    destruct (String.eqb tok ""); simpl; [apply lookup_empty |].
    apply lookup_insert_eq. }
  split.
  - intros Hstorage. apply Hboot. rewrite Hstorage.
    unfold saveTokenBtn_onclick. simpl. fold saved.
    destruct (String.eqb_spec saved "") as [-> | Hsaved]; simpl.
    + rewrite lookup_delete_eq. reflexivity.
    + rewrite lookup_insert_eq. reflexivity.
  - intros Hstorage.
    destruct (Hboot "") as (w1 & r & k & Hrun & Htoken & _ & Hpath & Hauth).
    { rewrite Hstorage. unfold clearTokenBtn_onclick. simpl.
      rewrite lookup_delete_eq. reflexivity. }
    exists w1, r, k. auto.
Qed.

(** ** Starting a thread and sending a message *)

Lemma run_api_receive_error (o : fetch_outcome) (e : js_error) (w : world) :
  outcome_error o = Some e -> run (api_receive o) w = (w, Failed e).
Proof.
  intros Herr. rewrite run_api_receive. destruct o as [r | e']; simpl in Herr.
  - destruct (ok r); [discriminate |]. injection Herr as <-. reflexivity.
  - injection Herr as <-. reflexivity.
Qed.

Lemma run_startThread_refresh (payload : value) (threadId : string) (w1 : world) :
  activeWorkspaceId (st w1) <> "" ->
  exists k2,
    run (refreshThreads;;
         (if negb (String.eqb threadId "") then modify (selectThread threadId)
          else mret tt);;
         modify (appendEvent "thread/start" payload)) w1
    = (w1, Blocked (api_request (st w1) "/api/threads"
                      [("workspaceId", activeWorkspaceId (st w1)); ("limit", "40");
                       ("sortKey", "updated_at")] no_options) k2)
    /\ forall (o2 : fetch_outcome) (w2 : world),
        (forall e, outcome_error o2 = Some e -> run (k2 o2) w2 = (w2, Failed e))
        /\ (forall r2, o2 = Responded r2 -> ok r2 = true ->
            exists w3,
              run (k2 o2) w2 = (w3, Finished tt)
              /\ threads (st w3) = extractThreadList (decode (text r2))
              /\ (threadId <> "" ->
                  activeThreadId (st w3) = threadId
                  /\ threadIdInput (dom w3)
                     = assign threadId (threadIdInput (dom w2)))
              /\ (threadId = "" ->
                  activeThreadId (st w3)
                  = reconcile_thread (extractThreadList (decode (text r2)))
                      (activeThreadId (st w2)))).
Proof.
  intros Hws1. rewrite run_bind.
  destruct (run_refreshThreads w1 Hws1) as [k2 [Hrun2 Hk2]].
  rewrite Hrun2. eexists. split; [reflexivity |].
  intros o2 w2. cbv beta. rewrite run_bind, Hk2. split.
  - intros e Herr. rewrite (failed_outcome o2 e w2 Herr). reflexivity.
  - intros r2 -> Hok2. rewrite Hok2, run_bind.
    destruct (String.eqb_spec threadId "") as [Hnone | Hsome]; cbn [negb].
    + eexists. split; [reflexivity |].
      rewrite appendEvent_st. rewrite store_threads_eq.
      split_and!; [reflexivity | intros Hne; contradiction | reflexivity].
    + rewrite run_modify. eexists. split; [reflexivity |].
      rewrite appendEvent_st, appendEvent_threadIdInput.
      rewrite store_threads_eq. split_and!.
      * reflexivity.
      * intros _. split; [reflexivity |]. simpl.
        destruct (threadIdInput (dom w2)); reflexivity.
      * intros Hnone. contradiction.
Qed.

Lemma run_startThread_idle (payload : value) (threadId : string) (w1 : world) :
  activeWorkspaceId (st w1) = "" ->
  exists w3,
    run (refreshThreads;;
         (if negb (String.eqb threadId "") then modify (selectThread threadId)
          else mret tt);;
         modify (appendEvent "thread/start" payload)) w1
    = (w3, Finished tt)
    /\ threads (st w3) = []
    /\ activeWorkspaceId (st w3) = ""
    /\ (threadId <> "" ->
        activeThreadId (st w3) = threadId
        /\ threadIdInput (dom w3) = assign threadId (threadIdInput (dom w1)))
    /\ (threadId = "" -> activeThreadId (st w3) = activeThreadId (st w1)).
Proof.
  intros Hws1. rewrite run_bind, run_refreshThreads_idle by exact Hws1.
  rewrite run_bind.
  destruct (String.eqb_spec threadId "") as [Hnone | Hsome]; cbn [negb].
  - eexists. split; [reflexivity |]. rewrite appendEvent_st.
    split_and!; [reflexivity | exact Hws1 | intros Hne; contradiction | reflexivity].
  - rewrite run_modify. eexists. split; [reflexivity |].
    rewrite appendEvent_st, appendEvent_threadIdInput. split_and!.
    + reflexivity.
    + exact Hws1.
    + intros _. split; [reflexivity |]. simpl.
      destruct (threadIdInput (dom w1)); reflexivity.
    + intros Hnone. contradiction.
Qed.

(** X7. [startThread] with an active workspace posts the workspace id to
    the start endpoint; if that request fails, its error is passed on and
    the world is left as it is.  On a successful answer it fetches the
    threads of the workspace active by then (workspaceId that id, limit 40,
    sortKey updated_at); when that fetch succeeds too, the fetched list is
    stored and the thread id the gateway reported becomes the active one and
    fills the thread field, also when the fetched list does not hold it; if
    the gateway reported no thread id the selection is the one the refresh
    reconciles.  If the fetch of the list fails, the error is passed on and
    nothing is selected.  If no workspace is active any more when the start
    request is answered, nothing is fetched: the thread list is emptied and
    the reported thread id is selected all the same. *)
Theorem startThread_selects_reported_thread (w : world) :
  activeWorkspaceId (st w) <> "" ->
  exists k,
    run startThread w
    = (w, Blocked (api_request (st w) "/api/threads/start" []
                     (mkOptions (Some "POST")
                        (Some (VObj [("workspaceId",
                                      VStr (activeWorkspaceId (st w)))])) None)) k)
    /\ (forall (o : fetch_outcome) (w1 : world) (e : js_error),
          outcome_error o = Some e -> run (k o) w1 = (w1, Failed e))
    /\ forall (r : response) (w1 : world),
        ok r = true ->
        let threadId := js_String (js_or (prop (decode (text r)) "threadId") (VStr "")) in
        (activeWorkspaceId (st w1) = "" ->
         exists w3,
           run (k (Responded r)) w1 = (w3, Finished tt)
           /\ threads (st w3) = []
           /\ activeWorkspaceId (st w3) = ""
           /\ (threadId <> "" ->
               activeThreadId (st w3) = threadId
               /\ threadIdInput (dom w3) = assign threadId (threadIdInput (dom w1)))
           /\ (threadId = "" -> activeThreadId (st w3) = activeThreadId (st w1)))
        /\ (activeWorkspaceId (st w1) <> "" ->
            exists k2,
              run (k (Responded r)) w1
              = (w1, Blocked (api_request (st w1) "/api/threads"
                                [("workspaceId", activeWorkspaceId (st w1));
                                 ("limit", "40"); ("sortKey", "updated_at")]
                                no_options) k2)
              /\ forall (o2 : fetch_outcome) (w2 : world),
                  (forall e, outcome_error o2 = Some e ->
                   run (k2 o2) w2 = (w2, Failed e))
                  /\ (forall r2, o2 = Responded r2 -> ok r2 = true ->
                      exists w3,
                        run (k2 o2) w2 = (w3, Finished tt)
                        /\ threads (st w3) = extractThreadList (decode (text r2))
                        /\ (threadId <> "" ->
                            activeThreadId (st w3) = threadId
                            /\ threadIdInput (dom w3)
                               = assign threadId (threadIdInput (dom w2)))
                        /\ (threadId = "" ->
                            activeThreadId (st w3)
                            = reconcile_thread (extractThreadList (decode (text r2)))
                                (activeThreadId (st w2))))).
Proof.
  intros Hws. eexists. split_and!.
  { unfold startThread. simpl. rewrite (eqb_empty_false _ Hws). reflexivity. }
  { intros o w1 e Herr. cbv beta.
    rewrite run_bind, (run_api_receive_error o e w1 Herr). reflexivity. }
  intros r w1 Hok threadId. cbv beta.
  rewrite run_bind, run_api_receive, Hok. split.
  - intros Hws1. exact (run_startThread_idle (decode (text r)) threadId w1 Hws1).
  - intros Hws1. exact (run_startThread_refresh (decode (text r)) threadId w1 Hws1).
Qed.

(** X8. [sendMessage], its preconditions met, posts the active workspace,
    the resolved thread id, the trimmed text and the access mode (the mode
    "current" when the selector has no value) to the message endpoint.  On
    a successful answer it empties the message box and logs the payload; on
    a failure it throws and leaves the world, with the message typed, as it
    is. *)
Theorem sendMessage_outcome (w : world) :
  activeWorkspaceId (st w) <> "" ->
  resolve_threadId w <> "" ->
  trim (value_of (messageInput (dom w))) <> "" ->
  exists k,
    run sendMessage w
    = (w, Blocked
            (api_request (st w) "/api/threads/message" []
               (mkOptions (Some "POST")
                  (Some (VObj [("workspaceId", VStr (activeWorkspaceId (st w)));
                               ("threadId", VStr (resolve_threadId w));
                               ("text", VStr (trim (value_of (messageInput (dom w)))));
                               ("accessMode",
                                VStr (str_or (value_of (accessModeSelect (dom w)))
                                        "current"))]))
                  None)) k)
    /\ forall (r : response) (w1 : world),
        (ok r = true ->
         run (k (Responded r)) w1
         = (appendEvent "thread/message" (decode (text r))
              (with_dom (set_messageInput "") w1), Finished tt))
        /\ (ok r = false ->
            run (k (Responded r)) w1
            = (w1, Failed (Error (failure_message r (decode (text r)))))).
Proof.
  intros Hws Hthread Htext. eexists. split.
  { unfold sendMessage. simpl. rewrite !eqb_empty_false by assumption.
    reflexivity. }
  intros r w1. cbv beta. rewrite run_bind, run_api_receive. split.
  - intros Hok. rewrite Hok. reflexivity.
  - intros Hfail. rewrite Hfail. reflexivity.
Qed.

(** ** What a push message can do *)

Lemma schedule_keeps (workspaceId : string) (w : world) :
  set_refreshThreadsTimer (refreshThreadsTimer (st w))
    (st (scheduleRefreshThreads workspaceId w)) = st w
  /\ dom (scheduleRefreshThreads workspaceId w) = dom w
  /\ localStorage (scheduleRefreshThreads workspaceId w) = localStorage w
  /\ clock (scheduleRefreshThreads workspaceId w) = clock w.
Proof.
  unfold scheduleRefreshThreads.
  destruct w as [[] ? ? ? ? ?]. repeat case_match; auto.
Qed.

Lemma on_app_server_event_log (payload : value) (w : world) :
  exists kind shown,
    eventsLog (dom (on_app_server_event payload w))
    = eventsLog (dom (appendEvent kind shown w)).
Proof.
  unfold on_app_server_event. do 2 eexists.
  set (logged := appendEvent _ _ w).
  destruct (_ && _)%bool; [| reflexivity].
  destruct (schedule_keeps
              (event_workspaceId (js_or (prop payload "params") (VObj [])))
              (if String.eqb (activeThreadId (st logged)) ""
               then with_dom
                      (set_threadIdInput
                         (event_threadId
                            (js_or (prop (js_or (prop payload "params") (VObj []))
                                      "message") (VObj []))))
                      (with_st
                         (set_activeThreadId
                            (event_threadId
                               (js_or (prop (js_or (prop payload "params") (VObj []))
                                         "message") (VObj []))))
                         logged)
               else logged)) as (_ & -> & _).
  destruct (String.eqb (activeThreadId (st logged)) ""); reflexivity.
Qed.

(** X9. Every message the socket delivers, whatever its text, writes
    exactly one line to the event log, unless the handler throws before it
    logs: afterwards the log is that line followed by the lines it held, cut
    to the 300 newest.  The handler throws before it logs only for an
    app-server-event whose workspace id or method is an object [String]
    cannot convert. *)
Theorem ws_onmessage_logs_one_line (data : string) (w : world)
    (log : list event_line) :
  throws_before_logging data = false ->
  eventsLog (dom w) = Some log ->
  exists kind shown,
    eventsLog (dom (ws_onmessage data w))
    = Some (take MAX_EVENT_LINES (mkLine (clock w) kind shown :: log)).
Proof.
  intros _ Hlog.
  assert (forall kind shown,
            eventsLog (dom (appendEvent kind shown w))
            = Some (take MAX_EVENT_LINES (mkLine (clock w) kind shown :: log)))
    as Hline.
  { intros kind shown. rewrite (appendEvent_log kind shown w log Hlog).
    reflexivity. }
  unfold ws_onmessage.
  destruct (JSON_parse (str_or data "{}")) as [payload |]; [| eauto].
  destruct (is_str (prop payload "type") "gateway/ready"); [eauto |].
  destruct (is_str (prop payload "type") "gateway/error"); [eauto |].
  destruct (is_str (prop payload "type") "gateway/disconnected"); [eauto |].
  destruct (is_str (prop payload "method") "app-server-event").
  - destruct (on_app_server_event_log payload w) as (kind & shown & ->). eauto.
  - destruct (_ || _)%bool; eauto.
Qed.

Lemma up_to_timer (v : option positive) (s s' : state) :
  set_refreshThreadsTimer v s = s' ->
  token s = token s'
  /\ workspaces s = workspaces s'
  /\ activeWorkspaceId s = activeWorkspaceId s'
  /\ threads s = threads s'
  /\ ws s = ws s'
  /\ activeThreadId s = activeThreadId s'.
Proof. intros <-. destruct s. simpl. split_and!; reflexivity. Qed.

Lemma on_app_server_event_keeps (payload : value) (w : world) :
  let w' := on_app_server_event payload w in
  token (st w') = token (st w)
  /\ workspaces (st w') = workspaces (st w)
  /\ activeWorkspaceId (st w') = activeWorkspaceId (st w)
  /\ threads (st w') = threads (st w)
  /\ ws (st w') = ws (st w)
  /\ localStorage w' = localStorage w
  /\ (activeThreadId (st w) <> "" -> activeThreadId (st w') = activeThreadId (st w)).
Proof.
  unfold on_app_server_event.
  set (logged := appendEvent _ _ w).
  assert (st logged = st w) as Hst by apply appendEvent_st.
  assert (localStorage logged = localStorage w) as Hls by apply appendEvent_timers.
  destruct (_ && _)%bool.
  - set (adopted := if String.eqb (activeThreadId (st logged)) "" then _ else logged).
    destruct (schedule_keeps
                (event_workspaceId (js_or (prop payload "params") (VObj [])))
                adopted) as (Hkeep & _ & Hls' & _).
    assert (token (st adopted) = token (st w)
            /\ workspaces (st adopted) = workspaces (st w)
            /\ activeWorkspaceId (st adopted) = activeWorkspaceId (st w)
            /\ threads (st adopted) = threads (st w)
            /\ ws (st adopted) = ws (st w)
            /\ localStorage adopted = localStorage w
            /\ (activeThreadId (st w) <> "" ->
                activeThreadId (st adopted) = activeThreadId (st w)))
      as (H1 & H2 & H3 & H4 & H5 & H6 & H7).
    { unfold adopted. rewrite Hst.
      destruct (String.eqb_spec (activeThreadId (st w)) "") as [Hnone | Hsome];
        simpl; rewrite ?Hst, ?Hls; split_and!; auto. intros Hne. contradiction. }
    destruct (up_to_timer _ _ _ Hkeep) as (K1 & K2 & K3 & K4 & K5 & K6).
    cbv zeta. rewrite K1, K2, K3, K4, K5, K6, Hls'. split_and!; auto.
  - cbv zeta. rewrite Hst, Hls. split_and!; reflexivity.
Qed.

Lemma ws_onmessage_keeps (data : string) (w : world) :
  let w' := ws_onmessage data w in
  token (st w') = token (st w)
  /\ workspaces (st w') = workspaces (st w)
  /\ activeWorkspaceId (st w') = activeWorkspaceId (st w)
  /\ threads (st w') = threads (st w)
  /\ ws (st w') = ws (st w)
  /\ localStorage w' = localStorage w
  /\ (activeThreadId (st w) <> "" -> activeThreadId (st w') = activeThreadId (st w))
  /\ (match JSON_parse (str_or data "{}") with
      | None => True
      | Some payload =>
          gateway_envelope payload = true
          \/ is_str (prop payload "method") "app-server-event" = false
      end ->
      st w' = st w
      /\ threadIdInput (dom w') = threadIdInput (dom w)
      /\ timers w' = timers w).
Proof.
  assert (forall kind shown,
            let logged := appendEvent kind shown w in
            (token (st logged) = token (st w)
             /\ workspaces (st logged) = workspaces (st w)
             /\ activeWorkspaceId (st logged) = activeWorkspaceId (st w)
             /\ threads (st logged) = threads (st w)
             /\ ws (st logged) = ws (st w)
             /\ localStorage logged = localStorage w
             /\ (activeThreadId (st w) <> "" ->
                 activeThreadId (st logged) = activeThreadId (st w)))
            /\ (st logged = st w
                /\ threadIdInput (dom logged) = threadIdInput (dom w)
                /\ timers logged = timers w)) as Hlogged.
  { intros kind shown logged.
    assert (st logged = st w) as Hst by apply appendEvent_st.
    rewrite Hst. split_and!; try reflexivity.
    - apply appendEvent_timers.
    - apply appendEvent_threadIdInput.
    - apply appendEvent_timers. }
  cbv zeta. unfold ws_onmessage, gateway_envelope.
  destruct (JSON_parse (str_or data "{}")) as [payload |].
  2: { destruct (Hlogged "ws/raw" (VStr data)) as [Hkeep Hsame].
       destruct Hkeep as (H1 & H2 & H3 & H4 & H5 & H6 & H7). split_and!; auto. }
  destruct (is_str (prop payload "type") "gateway/ready").
  { destruct (Hlogged "gateway/ready" payload) as [Hkeep Hsame].
    destruct Hkeep as (H1 & H2 & H3 & H4 & H5 & H6 & H7). split_and!; auto. }
  destruct (is_str (prop payload "type") "gateway/error").
  { destruct (Hlogged "gateway/error" (js_or (prop payload "message") payload))
      as [Hkeep Hsame].
    destruct Hkeep as (H1 & H2 & H3 & H4 & H5 & H6 & H7). split_and!; auto. }
  destruct (is_str (prop payload "type") "gateway/disconnected").
  { destruct (Hlogged "gateway/disconnected"
                (js_or (prop payload "message") payload)) as [Hkeep Hsame].
    destruct Hkeep as (H1 & H2 & H3 & H4 & H5 & H6 & H7). split_and!; auto. }
  destruct (is_str (prop payload "method") "app-server-event").
  { destruct (on_app_server_event_keeps payload w)
      as (H1 & H2 & H3 & H4 & H5 & H6 & H7).
    split_and!; auto. intros [Hgateway | Hmethod]; discriminate. }
  destruct (_ || _)%bool.
  { destruct (Hlogged (js_String (prop payload "method"))
                (js_or (prop payload "params") (VObj []))) as [Hkeep Hsame].
    destruct Hkeep as (H1 & H2 & H3 & H4 & H5 & H6 & H7). split_and!; auto. }
  destruct (Hlogged "ws/event" payload) as [Hkeep Hsame].
  destruct Hkeep as (H1 & H2 & H3 & H4 & H5 & H6 & H7). split_and!; auto.
Qed.

(** X10. No message the socket delivers changes the token, the workspaces,
    the active workspace, the threads, the socket handle or the storage, and
    none replaces an active thread id that is not empty.  A message that is
    not routed as an app-server-event (it is not JSON, it is a gateway
    envelope, or it has another method) changes nothing but the log: the
    state, the thread field and the pending timeouts stay. *)
Theorem ws_onmessage_reach (data : string) (w : world) :
  let w' := ws_onmessage data w in
  token (st w') = token (st w)
  /\ workspaces (st w') = workspaces (st w)
  /\ activeWorkspaceId (st w') = activeWorkspaceId (st w)
  /\ threads (st w') = threads (st w)
  /\ ws (st w') = ws (st w)
  /\ localStorage w' = localStorage w
  /\ (activeThreadId (st w) <> "" -> activeThreadId (st w') = activeThreadId (st w))
  /\ (match JSON_parse (str_or data "{}") with
      | None => True
      | Some payload =>
          gateway_envelope payload = true
          \/ is_str (prop payload "method") "app-server-event" = false
      end ->
      st w' = st w
      /\ threadIdInput (dom w') = threadIdInput (dom w)
      /\ timers w' = timers w).
Proof. exact (ws_onmessage_keeps data w). Qed.

(** ** The RPC panel *)

(** X12. [runRpc] checks its fields before it calls the gateway: a method
    that is blank, or parameters that are not JSON, end it in the matching
    error with no request made, and the click handler then shows that error
    in the output box instead of failing; parameters left blank are read as
    an empty object; otherwise one request posts the trimmed method and the
    parsed parameters to the RPC endpoint. *)
Theorem runRpc_checks_its_fields (panel : rpc_panel) (w : world) :
  let method := trim (value_of (rpcMethodInput panel)) in
  let paramsText :=
    str_or (trim (str_or (value_of (rpcParamsInput panel)) "{}")) "{}" in
  (method = "" ->
   run (runRpc panel) w = (w, Failed (Error "RPC method is required"))
   /\ run (runRpcBtn_onclick panel) w
      = (w, Finished (inr "Error: RPC method is required")))
  /\ (method <> "" -> JSON_parse paramsText = None ->
      run (runRpc panel) w = (w, Failed (Error "Params must be valid JSON"))
      /\ run (runRpcBtn_onclick panel) w
         = (w, Finished (inr "Error: Params must be valid JSON")))
  /\ (trim (value_of (rpcParamsInput panel)) = "" -> paramsText = "{}")
  /\ (method <> "" -> forall params, JSON_parse paramsText = Some params ->
      exists k,
        run (runRpc panel) w
        = (w, Blocked (api_request (st w) "/api/rpc" []
                         (mkOptions (Some "POST")
                            (Some (VObj [("method", VStr method);
                                         ("params", params)])) None)) k)
        /\ forall (r : response) (w1 : world),
            ok r = true ->
            run (k (Responded r)) w1 = (w1, Finished (decode (text r)))).
Proof.
  intros method paramsText. split_and!.
  - intros Hblank. unfold runRpcBtn_onclick, runRpc. fold method.
    rewrite Hblank. split; reflexivity.
  - intros Hmethod Hparse. unfold runRpcBtn_onclick, runRpc.
    fold method. fold paramsText.
    rewrite (eqb_empty_false _ Hmethod), Hparse. split; reflexivity.
  - intros Hblank. unfold paramsText, str_or at 2.
    destruct (String.eqb_spec (value_of (rpcParamsInput panel)) "") as [Hnone | Hsome].
    + reflexivity.
    + rewrite Hblank. reflexivity.
  - intros Hmethod params Hparse. unfold runRpc. fold method. fold paramsText.
    rewrite (eqb_empty_false _ Hmethod), Hparse. rewrite run_api.
    eexists. split; [reflexivity |].
    intros r w1 Hok. rewrite run_api_receive, Hok. reflexivity.
Qed.

(** ** Workspaces on the page *)

Lemma reconcile_workspace_listed (stored : list value) (previous : string) :
  reconcile_workspace stored previous = ""
  \/ In (reconcile_workspace stored previous)
       (map (fun w0 => js_String (prop w0 "id")) stored).
Proof.
  unfold reconcile_workspace.
  destruct stored as [| first rest]; [left; reflexivity |].
  cbn [length Nat.eqb].
  destruct (existsb _ (first :: rest)) eqn:Hfound.
  - right. apply existsb_workspace_id. exact Hfound.
  - cbn [hd]. unfold js_or.
    destruct (truthy (prop first "id")); [right; left |]; auto.
Qed.

(** X13. [renderWorkspaces] changes nothing but the active workspace id.
    With the select on the page and no null entry stored, the id it leaves
    is empty or is [String(w.id)] of a stored workspace; a null entry makes
    it throw a TypeError and without the select it returns at once, in both
    cases with the active workspace id as it was. *)
Theorem renderWorkspaces_active_is_listed (w : world) :
  (workspaceSelect (dom w) = true ->
   existsb nullish (workspaces (st w)) = false ->
   exists next,
     run renderWorkspaces w
     = (with_st (set_activeWorkspaceId next) w, Finished tt)
     /\ (next = ""
         \/ In next (map (fun w0 => js_String (prop w0 "id")) (workspaces (st w)))))
  /\ (workspaceSelect (dom w) = true ->
      existsb nullish (workspaces (st w)) = true ->
      run renderWorkspaces w = (w, Failed null_read))
  /\ (workspaceSelect (dom w) = false ->
      run renderWorkspaces w = (w, Finished tt)).
Proof.
  split_and!.
  - intros Hselect Hnonnull. eexists. split.
    + apply run_renderWorkspaces; assumption.
    + apply reconcile_workspace_listed.
  - intros Hselect Hnull. unfold renderWorkspaces. simpl.
    rewrite Hselect, Hnull. reflexivity.
  - intros Hselect. unfold renderWorkspaces. simpl. rewrite Hselect. reflexivity.
Qed.

(** ** Failed refreshes *)

Lemma run_renderWorkspaces_cases (w : world) :
  run renderWorkspaces w = (w, Failed null_read)
  \/ exists w',
       run renderWorkspaces w = (w', Finished tt)
       /\ workspaces (st w') = workspaces (st w).
Proof.
  destruct (workspaceSelect (dom w)) eqn:Hselect.
  - destruct (existsb nullish (workspaces (st w))) eqn:Hnull.
    + left. apply run_renderWorkspaces_null; assumption.
    + right. eexists. split; [apply run_renderWorkspaces; assumption |].
      reflexivity.
  - right. exists w. split; [apply run_renderWorkspaces_absent; assumption |].
    reflexivity.
Qed.

(** What [refreshWorkspaces] does once the collection is stored: if it
    suspends again, it is on the thread query for the workspace active by
    then, and a failure of that query is thrown on. *)
Lemma run_refreshWorkspaces_tail (stored w2 : world) (req : request)
    (k2 : fetch_outcome -> task unit) :
  run (renderWorkspaces;;
       w ← get_world;
       if negb (String.eqb (activeWorkspaceId (st w)) "")
       then refreshThreads
       else modify (with_st (set_threads []))) stored
  = (w2, Blocked req k2) ->
  workspaces (st w2) = workspaces (st stored)
  /\ req = api_request (st w2) "/api/threads"
             [("workspaceId", activeWorkspaceId (st w2)); ("limit", "40");
              ("sortKey", "updated_at")] no_options
  /\ forall o e w3, outcome_error o = Some e -> run (k2 o) w3 = (w3, Failed e).
Proof.
  intros Hrun. rewrite run_bind in Hrun.
  destruct (run_renderWorkspaces_cases stored) as [Hthrown | [w' [Hdone Hkept]]].
  - rewrite Hthrown in Hrun. discriminate.
  - rewrite Hdone in Hrun. simpl in Hrun.
    destruct (String.eqb_spec (activeWorkspaceId (st w')) "") as [Hnone | Hws];
      simpl in Hrun.
    + discriminate.
    + destruct (run_refreshThreads w' Hws) as [k [Hthreads Hk]].
      assert (run refreshThreads w' = (w2, Blocked req k2)) as Hsame by exact Hrun.
      rewrite Hthreads in Hsame. injection Hsame as <- <- <-.
      split_and!; [exact Hkept | reflexivity |].
      intros o e w3 Herr. rewrite Hk. apply failed_outcome. exact Herr.
Qed.

(** X14. A refresh whose first request fails (the call is rejected or the
    status is a failure) throws the error of [api] and leaves the world as
    it found it: [refreshThreads] keeps the thread list and the selection,
    [refreshWorkspaces] the workspaces; the refresh buttons then write that
    error to the event log, under threads/error and workspaces/error, and
    change nothing else.  When [refreshWorkspaces] has stored the collection
    and suspends again, it is on the thread query of the workspace active by
    then; if that query fails, the error is thrown on as well and the button
    writes it under workspaces/error, but the collection stored before the
    query stays: nothing is rolled back. *)
Theorem failed_refresh_changes_nothing (w : world) :
  (activeWorkspaceId (st w) <> "" ->
   exists k k',
     run refreshThreads w
     = (w, Blocked (api_request (st w) "/api/threads"
                      [("workspaceId", activeWorkspaceId (st w)); ("limit", "40");
                       ("sortKey", "updated_at")] no_options) k)
     /\ run refreshThreadsBtn_onclick w
        = (w, Blocked (api_request (st w) "/api/threads"
                         [("workspaceId", activeWorkspaceId (st w)); ("limit", "40");
                          ("sortKey", "updated_at")] no_options) k')
     /\ forall o e w1,
         outcome_error o = Some e ->
         run (k o) w1 = (w1, Failed e)
         /\ run (k' o) w1
            = (appendEvent "threads/error" (VStr (err_toString e)) w1, Finished tt))
  /\ exists k k',
       run refreshWorkspaces w
       = (w, Blocked (api_request (st w) "/api/workspaces" [] no_options) k)
       /\ run refreshWorkspacesBtn_onclick w
          = (w, Blocked (api_request (st w) "/api/workspaces" [] no_options) k')
       /\ (forall o e w1,
             outcome_error o = Some e ->
             run (k o) w1 = (w1, Failed e)
             /\ run (k' o) w1
                = (appendEvent "workspaces/error" (VStr (err_toString e)) w1,
                   Finished tt))
       /\ forall (r : response) (w1 w2 : world) (req : request)
                 (k2 : fetch_outcome -> task unit),
           ok r = true ->
           run (k (Responded r)) w1 = (w2, Blocked req k2) ->
           workspaces (st w2) = array_or_empty (prop (decode (text r)) "workspaces")
           /\ req = api_request (st w2) "/api/threads"
                      [("workspaceId", activeWorkspaceId (st w2)); ("limit", "40");
                       ("sortKey", "updated_at")] no_options
           /\ exists k2',
               run (k' (Responded r)) w1 = (w2, Blocked req k2')
               /\ forall o e w3,
                   outcome_error o = Some e ->
                   run (k2 o) w3 = (w3, Failed e)
                   /\ run (k2' o) w3
                      = (appendEvent "workspaces/error" (VStr (err_toString e)) w3,
                         Finished tt).
Proof.
  split.
  - intros Hws. destruct (run_refreshThreads w Hws) as [k [Hrun Hk]].
    exists k. eexists. split; [exact Hrun |]. split.
    + unfold refreshThreadsBtn_onclick. rewrite run_try_catch, Hrun. reflexivity.
    + intros o e w1 Herr.
      assert (run (k o) w1 = (w1, Failed e)) as Hfail.
      { rewrite Hk. apply failed_outcome. exact Herr. }
      split; [exact Hfail |]. cbv beta. rewrite run_try_catch, Hfail. reflexivity.
  - do 2 eexists. split_and!.
    + unfold refreshWorkspaces. rewrite run_bind, run_api. reflexivity.
    + unfold refreshWorkspacesBtn_onclick, refreshWorkspaces.
      rewrite run_try_catch, run_bind, run_api. reflexivity.
    + intros o e w1 Herr. cbv beta.
      assert (forall f : value -> task unit,
                run (api_receive o ≫= f) w1 = (w1, Failed e)) as Hfail.
      { intros f. rewrite run_bind, (run_api_receive_error o e w1 Herr).
        reflexivity. }
      split; [apply Hfail |]. rewrite run_try_catch, Hfail. reflexivity.
    + intros r w1 w2 req k2 Hok Hrun. cbv beta in Hrun.
      rewrite run_bind, run_api_receive, Hok in Hrun.
      rewrite run_bind, run_modify in Hrun.
      cbv beta. rewrite run_try_catch, run_bind, run_api_receive, Hok.
      rewrite run_bind, run_modify, Hrun.
      apply run_refreshWorkspaces_tail in Hrun as (Hstored & Hreq & Hfail).
      split_and!; [exact Hstored | exact Hreq |].
      eexists. split; [reflexivity |].
      intros o e w3 Herr. split; [apply Hfail; exact Herr |].
      cbv beta. rewrite run_try_catch, (Hfail o e w3 Herr). reflexivity.
Qed.

(** ** The push channel *)

Lemma ws_onmessage_handle (data : string) (w : world) :
  ws (st (ws_onmessage data w)) = ws (st w).
Proof. apply (ws_onmessage_keeps data w). Qed.

Lemma channel_step_handle (w : world) (e : channel_event) :
  bool_decide (is_Some (ws (st (channel_step w e))))
  = handle_after (bool_decide (is_Some (ws (st w)))) [e].
Proof.
  destruct e as [| | url | data | |]; simpl.
  - unfold connectWs. destruct (ws (st w)) as [held |] eqn:Hheld.
    + rewrite appendEvent_st, Hheld. reflexivity.
    + reflexivity.
  - reflexivity.
  - unfold ws_onopen. rewrite appendEvent_st. reflexivity.
  - rewrite ws_onmessage_handle. reflexivity.
  - unfold ws_onerror. rewrite appendEvent_st. reflexivity.
  - reflexivity.
Qed.

(** X15. Through any sequence of clicks on connect and disconnect and of
    open, message, error and close events of the socket, a socket handle is
    held exactly if the last click or close event was a click on connect
    (or, if there was none, a handle was held before): errors and messages
    never release the handle.  A click on connect while a handle is held
    keeps that handle.  One without a handle stores the socket opened on
    the page's host, path /ws/events, with the scheme wss if the page was
    loaded over https and ws otherwise, and with the query string made of
    the token alone if a token is set and of nothing if none is, after a
    question mark unless that string is empty. *)
Theorem channel_handle_held (events : list channel_event) (w : world) :
  let proto := if String.eqb location_protocol "https:" then "wss" else "ws" in
  let suffix (query : list (string * string)) :=
    if String.eqb (URLSearchParams_toString query) "" then ""
    else "?" +:+ URLSearchParams_toString query in
  bool_decide (is_Some (ws (st (fold_left channel_step events w))))
  = handle_after (bool_decide (is_Some (ws (st w)))) events
  /\ (forall url, ws (st w) = Some url -> ws (st (connectWs w)) = Some url)
  /\ (ws (st w) = None -> token (st w) = "" ->
      ws (st (connectWs w))
      = Some (proto +:+ "://" +:+ location_host +:+ "/ws/events" +:+ suffix []))
  /\ (ws (st w) = None -> token (st w) <> "" ->
      ws (st (connectWs w))
      = Some (proto +:+ "://" +:+ location_host +:+ "/ws/events"
              +:+ suffix [("token", token (st w))])).
Proof.
  intros proto suffix. split_and!.
  - revert w. induction events as [| e events IH]; intros w; [reflexivity |].
    cbn [fold_left]. rewrite IH, channel_step_handle. reflexivity.
  - intros url Hheld. unfold connectWs. rewrite Hheld, appendEvent_st. exact Hheld.
  - intros Hnone Htoken. unfold connectWs, wsUrl. rewrite Hnone, Htoken.
    cbn [with_st st set_ws ws String.eqb negb]. unfold suffix, proto.
    destruct (String.eqb (URLSearchParams_toString []) ""); reflexivity.
  - intros Hnone Htoken. unfold connectWs, wsUrl.
    rewrite Hnone, (eqb_empty_false _ Htoken).
    cbn [with_st st set_ws ws negb]. unfold suffix, proto.
    destruct (String.eqb (URLSearchParams_toString [("token", token (st w))]) "");
      reflexivity.
Qed.

(** ** After the timeout has run *)

(** X16. When the refresh timeout runs with a workspace active, the query
    it issues, if it fails, is written to the event log under refresh/error
    and not thrown; and the world the timeout leaves accepts the next
    notification for the active workspace, which arms a new timeout due 600
    units later. *)
Theorem scheduler_rearms_after_firing (t : timer) (w2 : world)
    (res : world * progress unit) :
  fire_timer t w2 = Some res ->
  activeWorkspaceId (st w2) <> "" ->
  let w3 := fst res in
  (exists k,
     snd res = Blocked (api_request (st w3) "/api/threads"
                          (threads_query (activeWorkspaceId (st w2))) no_options) k
     /\ forall o e w4,
         outcome_error o = Some e ->
         run (k o) w4
         = (appendEvent "refresh/error" (VStr (err_toString e)) w4, Finished tt))
  /\ refreshThreadsTimer (st (scheduleRefreshThreads (activeWorkspaceId (st w2)) w3))
     = Some (next_timer w3)
  /\ timers (scheduleRefreshThreads (activeWorkspaceId (st w2)) w3)
     = timers w3 ++ [mkTimer (next_timer w3) (clock w3 + 600)].
Proof.
  intros Hfire Hws. unfold fire_timer in Hfire.
  destruct (_ && _)%bool; [| discriminate].
  assert (res = run refreshThreads_timeout (drop_timer t w2)) as ->
    by congruence.
  clear Hfire. unfold refreshThreads_timeout.
  rewrite run_bind, run_modify, run_try_catch.
  set (w' := with_st (set_refreshThreadsTimer None) (drop_timer t w2)).
  assert (activeWorkspaceId (st w') <> "") as Hws' by exact Hws.
  destruct (run_refreshThreads w' Hws') as [k [Hrun Hk]].
  rewrite Hrun. cbn [fst snd]. split_and!.
  - eexists. split; [reflexivity |].
    intros o e w4 Herr. cbv beta. rewrite run_try_catch, Hk.
    destruct o as [r | e']; simpl in Herr.
    + destruct (ok r); [discriminate |]. injection Herr as <-. reflexivity.
    + injection Herr as <-. reflexivity.
  - rewrite schedule_accepted; [reflexivity | exact Hws | reflexivity | reflexivity].
  - rewrite schedule_accepted; [reflexivity | exact Hws | reflexivity | reflexivity].
Qed.

(** ** The thread field *)

Lemma appendEvent_sync (kind : string) (shown : value) (w : world) :
  field_in_sync w -> field_in_sync (appendEvent kind shown w).
Proof.
  unfold field_in_sync. rewrite appendEvent_st, appendEvent_threadIdInput. auto.
Qed.

Lemma on_app_server_event_sync (payload : value) (w : world) :
  field_in_sync w -> field_in_sync (on_app_server_event payload w).
Proof.
  intros Hsync. unfold on_app_server_event.
  set (logged := appendEvent _ _ w).
  assert (field_in_sync logged) as Hlogged by (apply appendEvent_sync; exact Hsync).
  destruct (_ && _)%bool; [| exact Hlogged].
  set (adopted := if String.eqb (activeThreadId (st logged)) "" then _ else logged).
  assert (field_in_sync adopted) as Hadopted.
  { unfold adopted. destruct (String.eqb (activeThreadId (st logged)) "");
      [| exact Hlogged].
    intros shown. simpl. destruct (threadIdInput (dom logged)); [| discriminate].
    intros [= <-]. reflexivity. }
  unfold field_in_sync.
  destruct (schedule_st
              (event_workspaceId (js_or (prop payload "params") (VObj [])))
              adopted) as (-> & _ & ->).
  exact Hadopted.
Qed.

(** X18. The script keeps the thread field on the active thread id: a
    completed thread refresh and a click on a thread leave the field, if
    the page has one, showing the active thread id, and a push message
    keeps it so.  While it is so, [resumeThread] and [sendMessage] resolve
    the active thread id (trimmed) as their thread. *)
Theorem thread_field_follows_selection (w : world) :
  (forall payload, field_in_sync (store_threads payload w))
  /\ (forall threadId,
        field_in_sync (selectThread threadId w)
        /\ resolve_threadId (selectThread threadId w) = trim threadId)
  /\ (field_in_sync w -> forall data, field_in_sync (ws_onmessage data w))
  /\ (field_in_sync w -> resolve_threadId w = trim (activeThreadId (st w))).
Proof.
  split_and!.
  - intros payload shown. rewrite store_threads_eq. simpl.
    destruct (threadIdInput (dom w)); [| discriminate]. intros [= <-]. reflexivity.
  - intros threadId. split.
    + intros shown. simpl.
      destruct (threadIdInput (dom w)); [| discriminate]. intros [= <-]. reflexivity.
    + unfold resolve_threadId, selectThread. simpl.
      destruct (threadIdInput (dom w)); simpl.
      * unfold str_or at 1. destruct (String.eqb_spec threadId "") as [-> | Hid];
          [reflexivity | reflexivity].
      * rewrite str_or_empty_r. reflexivity.
  - intros Hsync data. unfold ws_onmessage.
    destruct (JSON_parse (str_or data "{}")) as [payload |];
      [| apply appendEvent_sync; exact Hsync].
    repeat (case_match; try (apply appendEvent_sync; exact Hsync)).
    apply on_app_server_event_sync. exact Hsync.
  - intros Hsync. unfold resolve_threadId. rewrite str_or_empty_r.
    destruct (threadIdInput (dom w)) as [shown |] eqn:Hfield; simpl.
    + rewrite (Hsync shown Hfield). unfold str_or.
      destruct (String.eqb (activeThreadId (st w)) ""); reflexivity.
    + unfold str_or. reflexivity.
Qed.

End Console.

(** ** The script on concrete inputs *)

Example lite_workspaces :
  Lite.parse workspaces_doc
  = Some (VObj [("workspaces",
                 VArr [VObj [("id", VStr "w1")]; VObj [("id", VStr "w2")]])]).
Proof. reflexivity. Qed.

Example lite_event : Lite.parse (event_doc "w1" "t1") = Some (event_value "w1" "t1").
Proof. reflexivity. Qed.

Example lite_rejects : Lite.parse "<html>busy</html>" = None.
Proof. reflexivity. Qed.

(** The start-up scenario: both fetches answered in turn. *)
Example bootstrap_scenario :
  complete (refreshWorkspaces Lite.parse)
    [Responded (ok_response workspaces_doc); Responded (ok_response threads_doc)] boot
  = (synced, Finished tt).
Proof. reflexivity. Qed.

(** Starting a thread on [w1]: the list is fetched again and the new thread
    [t2] becomes the active one. *)
Example startThread_scenario :
  let done :=
    complete (startThread Lite.parse)
      [Responded (ok_response started_doc); Responded (ok_response threads_doc2)]
      synced in
  snd done = Finished tt
  /\ activeThreadId (st (fst done)) = "t2"
  /\ map extractThreadId (threads (st (fst done))) = ["t2"; "t1"].
Proof. split_and!; reflexivity. Qed.


(** The first refresh after the page has loaded: the two workspaces are
    stored, [w1] becomes the active one and its threads are asked for. *)
Lemma refreshWorkspaces_reconciles_witness :
  exists k,
    run (refreshWorkspaces Lite.parse) boot
    = (boot, Blocked (api_request (st boot) "/api/workspaces" [] no_options) k)
    /\ exists w2 k',
         run (k (Responded (ok_response workspaces_doc))) boot
         = (w2, Blocked (api_request (st w2) "/api/threads"
                           [("workspaceId", "w1"); ("limit", "40");
                            ("sortKey", "updated_at")] no_options) k')
         /\ activeWorkspaceId (st w2) = "w1"
         /\ workspaces (st w2) = [VObj [("id", VStr "w1")]; VObj [("id", VStr "w2")]].
Proof.
  destruct (refreshWorkspaces_reconciles Lite.parse boot) as [k [Hrun Hk]].
  exists k. split; [exact Hrun |].
  destruct (Hk (ok_response workspaces_doc) boot eq_refl)
    as [_ [next (_ & _ & Hreset & Hrest)]].
  assert (next = "w1") as Hnext.
  { apply Hreset; [reflexivity |]. intros [H | [H | []]]; discriminate. }
  destruct (Hrest ltac:(right; reflexivity)) as (Hstored & Hactive & _ & Hfetch).
  destruct (Hfetch ltac:(rewrite Hnext; discriminate)) as [k' [Hrun' _]].
  rewrite Hnext in Hrun', Hactive, Hstored.
  eexists. exists k'. split; [exact Hrun' |]. split; [exact Hactive | exact Hstored].
Defined.

(** C2, as stated, fails. With no workspace active, the collection
    [[{"id":0},{"id":"w2"}]] leaves the active workspace id empty and the
    threads cleared, although the collection is not empty and its first
    entry has an id.  With [w1] active, the collection [[{"id":"w3"},null]]
    is stored and then [renderWorkspaces] throws: the active workspace id
    stays [w1], which no entry of the stored collection has. *)
Lemma refreshWorkspaces_leaves_unlisted_id :
  (exists k,
     run (refreshWorkspaces Lite.parse) boot
     = (boot, Blocked (api_request (st boot) "/api/workspaces" [] no_options) k)
     /\ exists w2,
          run (k (Responded (ok_response zero_id_doc))) boot = (w2, Finished tt)
          /\ workspaces (st w2)
             = [VObj [("id", VNum 0)]; VObj [("id", VStr "w2")]]
          /\ activeWorkspaceId (st w2) = ""
          /\ threads (st w2) = [])
  /\ (exists k,
        run (refreshWorkspaces Lite.parse) synced
        = (synced, Blocked (api_request (st synced) "/api/workspaces" [] no_options) k)
        /\ exists w2,
             run (k (Responded (ok_response null_entry_doc))) synced
             = (w2, Failed null_read)
             /\ workspaces (st w2) = [VObj [("id", VStr "w3")]; VNull]
             /\ activeWorkspaceId (st w2) = "w1"
             /\ threads (st w2) = threads (st synced)).
Proof.
  split; eexists; (split; [reflexivity |]); eexists; split_and!; reflexivity.
Qed.




(** The two push scenarios in the synced world: an event for the active
    workspace [w1] leaves [t1] active and arms the refresh; an event for [w2]
    adopts nothing and arms nothing. *)
Lemma app_server_event_routing_witness :
  (activeThreadId (st (ws_onmessage Lite.parse (event_doc "w1" "t1") synced)) = "t1"
   /\ timers (ws_onmessage Lite.parse (event_doc "w1" "t1") synced)
      = [mkTimer 1%positive 600])
  /\ (activeThreadId (st (ws_onmessage Lite.parse (event_doc "w2" "t7") synced)) = "t1"
      /\ refreshThreadsTimer (st (ws_onmessage Lite.parse (event_doc "w2" "t7") synced))
         = None
      /\ timers (ws_onmessage Lite.parse (event_doc "w2" "t7") synced) = []).
Proof.
  split.
  - destruct (app_server_event_routing Lite.parse (event_doc "w1" "t1")
                (event_value "w1" "t1") synced eq_refl eq_refl eq_refl)
      as (Hsame & _).
    destruct (Hsame ltac:(discriminate) eq_refl) as (Hthread & _ & _ & Harmed & _).
    split; [exact Hthread |].
    exact (Harmed ltac:(discriminate) eq_refl).
  - destruct (app_server_event_routing Lite.parse (event_doc "w2" "t7")
                (event_value "w2" "t7") synced eq_refl eq_refl eq_refl)
      as (_ & Hother).
    destruct (Hother ltac:(right; discriminate)) as (Hthread & _ & Hflag & Htimers).
    split_and!; assumption.
Defined.

(** C5, as stated, fails. Before any workspace is active, an event that
    carries the thread id [t5] and no workspace id has the workspace id
    [""], which equals the active one: the thread id is adopted, and the
    scheduler, called with the empty id, schedules nothing. *)
Lemma app_server_event_adopts_without_refresh :
  let w' := ws_onmessage Lite.parse (orphan_event_doc "t5") boot in
  activeWorkspaceId (st boot) = ""
  /\ activeThreadId (st boot) = ""
  /\ activeThreadId (st w') = "t5"
  /\ threadIdInput (dom w') = Some "t5"
  /\ refreshThreadsTimer (st w') = None
  /\ timers w' = [].
Proof. vm_compute. split_and!; reflexivity. Qed.

(** C6, as stated, fails. A failure response whose body is [{"error":""}]
    decodes to an object that has the [error] field, yet the error thrown
    does not carry that field as its message: it carries the status line. *)
Lemma api_falls_back_on_empty_error_field :
  let r := mkResponse false 500 "Internal Server Error" empty_error_doc in
  exists k,
    run (api Lite.parse "/api/workspaces" [] no_options) boot
    = (boot, Blocked (api_request (st boot) "/api/workspaces" [] no_options) k)
    /\ decode Lite.parse (text r) = VObj [("error", VStr "")]
    /\ run (k (Responded r)) boot
       = (boot, Failed (Error "500 Internal Server Error"))
    /\ "500 Internal Server Error"
       <> js_String (prop (decode Lite.parse (text r)) "error").
Proof.
  eexists. split; [reflexivity |]. split_and!; try reflexivity. discriminate.
Qed.

(** A page of markup answered with status 200 is returned wrapped, and a
    failure with a non-empty [error] field throws that field. *)
Lemma api_outcome_witness :
  exists k,
    run (api Lite.parse "/api/workspaces" [] no_options) boot
    = (boot, Blocked (api_request (st boot) "/api/workspaces" [] no_options) k)
    /\ run (k (Responded (ok_response "<html>busy</html>"))) boot
       = (boot, Finished (VObj [("raw", VStr "<html>busy</html>")]))
    /\ run (k (Responded (ok_response ""))) boot = (boot, Finished VNull)
    /\ run (k (Responded (mkResponse false 401 "Unauthorized" unauthorized_doc))) boot
       = (boot, Failed (Error "unauthorized"))
    /\ run (k (Responded (mkResponse false 502 "Bad Gateway" ""))) boot
       = (boot, Failed (Error "502 Bad Gateway")).
Proof.
  destruct (api_outcome Lite.parse "/api/workspaces" [] no_options boot)
    as [k [Hrun Hk]].
  exists k. split; [exact Hrun |]. split_and!.
  - destruct (Hk (ok_response "<html>busy</html>") boot)
      as (_ & Hraw & _ & Hok & _).
    pose proof (Hok eq_refl) as Hdone.
    rewrite (Hraw ltac:(discriminate) eq_refl) in Hdone. exact Hdone.
  - destruct (Hk (ok_response "") boot) as (Hnull & _ & _ & Hok & _).
    pose proof (Hok eq_refl) as Hdone.
    rewrite (Hnull eq_refl) in Hdone. exact Hdone.
  - destruct (Hk (mkResponse false 401 "Unauthorized" unauthorized_doc) boot)
      as (_ & _ & _ & _ & Hfield & _).
    exact (Hfield eq_refl eq_refl).
  - destruct (Hk (mkResponse false 502 "Bad Gateway" "") boot)
      as (_ & _ & _ & _ & _ & Hstatus).
    exact (Hstatus eq_refl eq_refl).
Defined.

(** Sending with no workspace selected, and sending blanks. *)
Lemma preconditions_before_network_witness :
  run (sendMessage Lite.parse) boot = (boot, Failed (Error "Select a workspace first"))
  /\ run (resumeThread Lite.parse) boot
     = (boot, Failed (Error "Select a workspace first"))
  /\ run (sendMessage Lite.parse) synced_blank_message
     = (synced_blank_message, Failed (Error "Enter a message first"))
  /\ issued (snd (run (sendMessage Lite.parse) synced_blank_message)) = None.
Proof.
  destruct (preconditions_before_network Lite.parse boot) as (Hno_ws & _).
  destruct (Hno_ws eq_refl) as [Hsend Hresume].
  destruct (preconditions_before_network Lite.parse synced_blank_message)
    as (_ & _ & Hno_text & Hnone & _).
  split_and!.
  - exact Hsend.
  - exact Hresume.
  - apply Hno_text; [discriminate | discriminate | reflexivity].
  - apply Hnone. right. right. reflexivity.
Defined.

(** 301 events appended to an empty log leave 300 lines. *)
Lemma event_log_capacity_witness :
  exists log',
    eventsLog (dom (appendEvents burst boot)) = Some log'
    /\ length log' = 300%nat.
Proof.
  destruct (event_log_capacity burst boot [] eq_refl ltac:(discriminate))
    as [log' (Hlog & Hshape & _)].
  exists log'. split; [exact Hlog |].
  rewrite Hshape. vm_compute. reflexivity.
Defined.

(** Saving blanks over a stored credential removes it. *)
Lemma save_blank_token_clears_witness :
  token (st (saveTokenBtn_onclick credentialed)) = ""
  /\ localStorage (saveTokenBtn_onclick credentialed) !! TOKEN_STORAGE_KEY = None
  /\ localStorage credentialed !! TOKEN_STORAGE_KEY = Some "secret".
Proof.
  destruct (save_blank_token_clears Lite.parse credentialed eq_refl)
    as (Htoken & _ & Hgone & _).
  split_and!; [exact Htoken | exact Hgone | apply lookup_singleton_eq].
Defined.

(** ** The locale helpers *)

(** X17. With a [window], the locale written by [setStoredAppLocale] is the
    one [getStoredAppLocale] reads back, for both locales; without one,
    nothing is stored and English is read. *)
Theorem stored_locale_round_trip (locale : Locale.AppLocale) (b : Locale.browser) :
  (Locale.has_window b = true ->
   Locale.getStoredAppLocale (Locale.setStoredAppLocale locale b) = locale)
  /\ (Locale.has_window b = false ->
      Locale.setStoredAppLocale locale b = b
      /\ Locale.getStoredAppLocale (Locale.setStoredAppLocale locale b) = Locale.en).
Proof.
  unfold Locale.getStoredAppLocale, Locale.setStoredAppLocale. split.
  - intros Hwindow. rewrite Hwindow. cbn [negb Locale.has_window Locale.storage].
    rewrite lookup_insert_eq. destruct locale; reflexivity.
  - intros Hwindow. rewrite Hwindow. cbn [negb]. rewrite Hwindow. auto.
Qed.

(** ** More of the script on concrete inputs *)

(** The text of an entity is escaped again, so it differs from the escaped
    character. *)
Lemma escapeHtml_injective_witness :
  "<" <> "&lt;" /\ escapeHtml "<" <> escapeHtml "&lt;".
Proof.
  split; [discriminate |]. apply escapeHtml_injective. discriminate.
Defined.

(** Two threads arrive; the active [t1] is second in the list and marked. *)
Lemma refreshed_list_shows_selection_witness :
  exists k,
    run (refreshThreads Lite.parse) synced
    = (synced, Blocked (api_request (st synced) "/api/threads"
                          (threads_query "w1") no_options) k)
    /\ exists w2,
         run (k (Responded (ok_response threads_doc2))) synced = (w2, Finished tt)
         /\ length (thread_items (st w2)) = 2%nat
         /\ Exists (fun item => item_active item = true) (thread_items (st w2)).
Proof.
  destruct (refreshed_list_shows_selection Lite.parse synced ltac:(discriminate))
    as [k [Hrun Hk]].
  exists k. split; [exact Hrun |].
  destruct (Hk (ok_response threads_doc2) synced eq_refl ltac:(discriminate))
    as [w2 (Hdone & Hlength & _ & Hmarked)].
  exists w2. split_and!; [exact Hdone | exact Hlength | exact Hmarked].
Defined.

(** The gateway reports [t2], the list fetched next still holds only [t1]:
    [t2] is active all the same. *)
Lemma startThread_selects_reported_thread_witness :
  exists (k k2 : fetch_outcome -> task unit) (w3 : world),
    issued (snd (run (startThread Lite.parse) synced)) <> None
    /\ fst (run (k (Responded (ok_response started_doc))) synced) = synced
    /\ run (k2 (Responded (ok_response threads_doc))) synced = (w3, Finished tt)
    /\ activeThreadId (st w3) = "t2"
    /\ map extractThreadId (threads (st w3)) = ["t1"].
Proof.
  destruct (startThread_selects_reported_thread Lite.parse synced
              ltac:(discriminate)) as [k [Hrun Hk]].
  destruct Hk as [_ Hk].
  destruct (Hk (ok_response started_doc) synced eq_refl) as [_ Hfetch].
  destruct (Hfetch ltac:(discriminate)) as [k2 [Hrun2 Hk2]].
  destruct (Hk2 (Responded (ok_response threads_doc)) synced) as [_ Hdone].
  destruct (Hdone (ok_response threads_doc) eq_refl eq_refl)
    as [w3 (Hrun3 & Hthreads & Hselected & _)].
  exists k, k2, w3. split_and!.
  - rewrite Hrun. discriminate.
  - rewrite Hrun2. reflexivity.
  - exact Hrun3.
  - apply Hselected. discriminate.
  - rewrite Hthreads. reflexivity.
Defined.

(** A message sent from the synced world, answered with a failure: the
    text stays in the box. *)
Lemma sendMessage_outcome_witness :
  exists (k : fetch_outcome -> task unit) (e : js_error),
    issued (snd (run (sendMessage Lite.parse) synced_hello)) <> None
    /\ run (k (Responded (mkResponse false 401 "Unauthorized" unauthorized_doc)))
         synced_hello = (synced_hello, Failed e)
    /\ messageInput (dom synced_hello) = Some " hello ".
Proof.
  destruct (sendMessage_outcome Lite.parse synced_hello ltac:(discriminate)
              ltac:(discriminate) ltac:(discriminate)) as [k [Hrun Hk]].
  destruct (Hk (mkResponse false 401 "Unauthorized" unauthorized_doc) synced_hello)
    as [_ Hfail].
  exists k. eexists. split_and!.
  - rewrite Hrun. discriminate.
  - exact (Hfail eq_refl).
  - reflexivity.
Defined.

(** [{"method":"app-server-event","params":{"workspace_id":{"toString":0}}}]:
    the workspace id is an object [String] cannot convert, so the handler
    throws at line 456, before it logs. *)
Example throws_before_logging_unconvertible_id :
  throws_before_logging Lite.parse
    ("{" +:+ Lite.q "method" +:+ ":" +:+ Lite.q "app-server-event" +:+ ","
     +:+ Lite.q "params" +:+ ":{" +:+ Lite.q "workspace_id" +:+ ":{"
     +:+ Lite.q "toString" +:+ ":0}}}") = true.
Proof. reflexivity. Qed.

(** An event for the active workspace is logged as one line, on top of the
    line the log held. *)
Lemma ws_onmessage_logs_one_line_witness :
  let w := appendEvent "ws/open" (VStr "connected") synced in
  exists kind shown,
    eventsLog (dom (ws_onmessage Lite.parse (event_doc "w1" "t1") w))
    = Some [mkLine 0 kind shown; mkLine 0 "ws/open" (VStr "connected")].
Proof.
  intros w.
  destruct (ws_onmessage_logs_one_line Lite.parse (event_doc "w1" "t1") w
              [mkLine 0 "ws/open" (VStr "connected")] eq_refl eq_refl)
    as (kind & shown & Hlog).
  exists kind, shown. exact Hlog.
Defined.

(** The timeout armed in the synced world runs at 600; afterwards a new
    notification arms the next one, due at 1200. *)
Lemma scheduler_rearms_after_firing_witness :
  let t := mkTimer 1%positive 600 in
  let res := run (refreshThreads_timeout Lite.parse)
               (drop_timer t (advance 600 (scheduleRefreshThreads "w1" synced))) in
  fire_timer Lite.parse t (advance 600 (scheduleRefreshThreads "w1" synced)) = Some res
  /\ timers (scheduleRefreshThreads "w1" (fst res)) = [mkTimer 2%positive 1200].
Proof.
  intros t res.
  assert (fire_timer Lite.parse t (advance 600 (scheduleRefreshThreads "w1" synced))
          = Some res) as Hfire by reflexivity.
  split; [exact Hfire |].
  destruct (scheduler_rearms_after_firing Lite.parse t _ res Hfire
              ltac:(discriminate)) as (_ & _ & Htimers).
  exact Htimers.
Defined.

(** The workspaces arrive after the page has loaded, and the thread query
    that follows is refused: the button logs the error, and the two
    workspaces stay stored with [w1] active. *)
Lemma failed_refresh_changes_nothing_witness :
  exists (k' k2' : fetch_outcome -> task unit) (w2 : world) (req : request),
    run (refreshWorkspacesBtn_onclick Lite.parse) boot
    = (boot, Blocked (api_request (st boot) "/api/workspaces" [] no_options) k')
    /\ run (k' (Responded (ok_response workspaces_doc))) boot = (w2, Blocked req k2')
    /\ workspaces (st w2) = [VObj [("id", VStr "w1")]; VObj [("id", VStr "w2")]]
    /\ activeWorkspaceId (st w2) = "w1"
    /\ run (k2' (Responded (mkResponse false 401 "Unauthorized" unauthorized_doc))) w2
       = (appendEvent "workspaces/error" (VStr "Error: unauthorized") w2,
          Finished tt).
Proof.
  destruct (failed_refresh_changes_nothing Lite.parse boot)
    as [_ (k & k' & Hrun & Hbutton & _ & Hnested)].
  unfold refreshWorkspaces in Hrun. rewrite run_bind, run_api in Hrun.
  injection Hrun as <-.
  destruct (Hnested (ok_response workspaces_doc) boot
              (with_st (fun s => set_activeWorkspaceId "w1"
                                   (set_workspaces
                                      [VObj [("id", VStr "w1")];
                                       VObj [("id", VStr "w2")]] s)) boot)
              _ _ eq_refl eq_refl)
    as (Hstored & _ & k2' & Hresume & Hfail).
  exists k', k2'. do 2 eexists. split_and!.
  - exact Hbutton.
  - exact Hresume.
  - exact Hstored.
  - reflexivity.
  - destruct (Hfail (Responded (mkResponse false 401 "Unauthorized" unauthorized_doc))
                (Error "unauthorized")
                (with_st (fun s => set_activeWorkspaceId "w1"
                                     (set_workspaces
                                        [VObj [("id", VStr "w1")];
                                         VObj [("id", VStr "w2")]] s)) boot)
                eq_refl) as [_ Hlogged].
    exact Hlogged.
Defined.
